(** * Micro-AMM pool contract (Mamm.algo.ts): shallow embedding and properties

    The contract is a TEALScript class compiled to the Algorand virtual
    machine (AVM).  Its state is a set of [uint64] / byte-string global
    keys, every public method is one atomic application call, and every
    failed [assert], arithmetic fault or rejected verification aborts the
    call and reverts the state.

    The embedding follows the contract method by method:
    - [uint64] values are integers in [Z] together with the AVM's checked
      arithmetic (overflow, underflow and division by zero abort the call);
    - the global state is the record [State], one field per [GlobalStateKey];
    - a method is a function into [Result (State * list InnerTxn)]: the new
      state and the inner transactions it submits, or the reason it aborted. *)

From Stdlib Require Import ZArith List String Bool Lia.
Import ListNotations.
Open Scope string_scope.
Open Scope Z_scope.

(** ** Failures and the error monad *)

(** Why a call aborts.  The source messages are given next to each case. *)
Inductive Error : Type :=
| Unauthorized         (* assert(this.admin.value === this.txn.sender, 'Only admin can ...') *)
| PreconditionFailed   (* verifyPayTxn / verifyAssetTransferTxn rejects the grouped transaction *)
| InvalidAmount        (* 'Invalid input amount', 'Invalid LP amount' *)
| InvalidSwapType      (* assert(false, 'Invalid swap type') *)
| InsufficientSupply   (* 'Not enough LP supply' *)
| SwapTooSmall         (* 'Swap too small' *)
| ArithmeticOverflow   (* +, * or wideRatio result above 2^64 - 1 *)
| ArithmeticUnderflow  (* - below zero *)
| DivisionByZero.      (* / or wideRatio with a zero denominator *)

Inductive Result (A : Type) : Type :=
| Ok (a : A)
| Err (e : Error).
Arguments Ok {A} a.
Arguments Err {A} e.

Definition bind {A B : Type} (c : Result A) (k : A -> Result B) : Result B :=
  match c with
  | Ok a => k a
  | Err e => Err e
  end.

Notation "x <- c ;; k" := (bind c (fun x => k))
  (at level 61, c at next level, right associativity).

(** [assert(cond, msg)] *)
Definition assert (cond : bool) (e : Error) : Result unit :=
  if cond then Ok tt else Err e.

(** ** AVM uint64 arithmetic *)

Definition MAX_UINT64 : Z := 2 ^ 64 - 1.

Definition uint64 (n : Z) : Prop := 0 <= n <= MAX_UINT64.

(** [a + b]: the AVM opcode fails on overflow. *)
Definition add64 (a b : Z) : Result Z :=
  if a + b <=? MAX_UINT64 then Ok (a + b) else Err ArithmeticOverflow.

(** [a - b]: fails when the result would be negative. *)
Definition sub64 (a b : Z) : Result Z :=
  if b <=? a then Ok (a - b) else Err ArithmeticUnderflow.

(** [a * b]: fails on overflow. *)
Definition mul64 (a b : Z) : Result Z :=
  if a * b <=? MAX_UINT64 then Ok (a * b) else Err ArithmeticOverflow.

(** [a / b]: floor division, fails on a zero divisor. *)
Definition div64 (a b : Z) : Result Z :=
  if b =? 0 then Err DivisionByZero else Ok (a / b).

(** [sqrt(a)]: the largest integer whose square is at most [a]. *)
Definition sqrt (a : Z) : Z := Z.sqrt a.

Definition product (factors : list Z) : Z := fold_right Z.mul 1 factors.

(** [wideRatio(numeratorFactors, denominatorFactors)]: the product of the
    numerators divided by the product of the denominators, computed with
    128-bit intermediates ([mulw] / [divmodw]); it fails when the divisor
    is zero or when the quotient does not fit in 64 bits.  Every call in
    the contract has at most two factors on each side, so the 128-bit
    products are exact. *)
Definition wideRatio (numeratorFactors denominatorFactors : list Z) : Result Z :=
  let n := product numeratorFactors in
  let d := product denominatorFactors in
  if d =? 0 then Err DivisionByZero
  else if n / d <=? MAX_UINT64 then Ok (n / d)
  else Err ArithmeticOverflow.

(** ** Constants *)

(* The contract's version (used for tracking upgrades) *)
Definition VERSION : Z := 1000.

(* The minimum balance requirement for holding tokens *)
Definition TOKEN_MBR : Z := 100000.

Definition LP_TOKEN_SUPPLY : Z := 99999999999999.

(** ** Global state *)

Definition Address : Type := string.

Record State : Type := mkState {
  primary_token_reserve : Z;     (* 'ptr' *)
  secondary_token_reserve : Z;   (* 'str' *)
  primary_token_id : Z;          (* 'pti' *)
  secondary_token_id : Z;        (* 'sti' *)
  total_lp_supply : Z;           (* 'tlps' *)
  lp_tokens_issued : Z;          (* 'lpti' *)
  k_value : Z;                   (* 'k' *)
  lp_token_id : Z;               (* 'lp' *)
  lp_token_name : string;        (* 'lpn' *)
  lp_token_symbol : string;      (* 'lps' *)
  lp_token_decimals : Z;         (* 'lpd' *)
  lp_token_url : string;         (* 'lpu' *)
  swap_fee_bps : Z;              (* 'sfbps', admin can update *)
  protocol_fee_bps : Z;          (* 'pfbps', admin can update *)
  admin : Address;               (* 'admin', can be updated *)
  treasury_address : Address;    (* 'treasury', can be updated *)
  minimum_balance : Z;           (* 'minbal', can be updated *)
  contract_ending : Z;           (* 'end' *)
  contract_version : Z           (* 'version' *)
}.

(** The global state of an application that has not run any method yet:
    a key that was never written reads as [0] (or the empty byte string). *)
Definition empty_state : State :=
  mkState 0 0 0 0 0 0 0 0 EmptyString EmptyString 0 EmptyString 0 0
          EmptyString EmptyString 0 0 0.

(** Every numeric key holds a [uint64]. *)
Definition wf_state (st : State) : Prop :=
  uint64 st.(primary_token_reserve) /\ uint64 st.(secondary_token_reserve) /\
  uint64 st.(primary_token_id) /\ uint64 st.(secondary_token_id) /\
  uint64 st.(total_lp_supply) /\ uint64 st.(lp_tokens_issued) /\
  uint64 st.(k_value) /\ uint64 st.(lp_token_id) /\
  uint64 st.(lp_token_decimals) /\
  uint64 st.(swap_fee_bps) /\ uint64 st.(protocol_fee_bps) /\
  uint64 st.(minimum_balance) /\ uint64 st.(contract_ending) /\
  uint64 st.(contract_version).

(** [this.<key>.value = v], one setter per key. *)
Definition set_primary_token_reserve (v : Z) (st : State) : State :=
  mkState v (st.(secondary_token_reserve)) (st.(primary_token_id))
    (st.(secondary_token_id)) (st.(total_lp_supply)) (st.(lp_tokens_issued))
    (st.(k_value)) (st.(lp_token_id)) (st.(lp_token_name))
    (st.(lp_token_symbol)) (st.(lp_token_decimals)) (st.(lp_token_url))
    (st.(swap_fee_bps)) (st.(protocol_fee_bps)) (st.(admin))
    (st.(treasury_address)) (st.(minimum_balance)) (st.(contract_ending))
    (st.(contract_version)).

Definition set_secondary_token_reserve (v : Z) (st : State) : State :=
  mkState (st.(primary_token_reserve)) v (st.(primary_token_id))
    (st.(secondary_token_id)) (st.(total_lp_supply)) (st.(lp_tokens_issued))
    (st.(k_value)) (st.(lp_token_id)) (st.(lp_token_name))
    (st.(lp_token_symbol)) (st.(lp_token_decimals)) (st.(lp_token_url))
    (st.(swap_fee_bps)) (st.(protocol_fee_bps)) (st.(admin))
    (st.(treasury_address)) (st.(minimum_balance)) (st.(contract_ending))
    (st.(contract_version)).

Definition set_primary_token_id (v : Z) (st : State) : State :=
  mkState (st.(primary_token_reserve)) (st.(secondary_token_reserve)) v
    (st.(secondary_token_id)) (st.(total_lp_supply)) (st.(lp_tokens_issued))
    (st.(k_value)) (st.(lp_token_id)) (st.(lp_token_name))
    (st.(lp_token_symbol)) (st.(lp_token_decimals)) (st.(lp_token_url))
    (st.(swap_fee_bps)) (st.(protocol_fee_bps)) (st.(admin))
    (st.(treasury_address)) (st.(minimum_balance)) (st.(contract_ending))
    (st.(contract_version)).

Definition set_secondary_token_id (v : Z) (st : State) : State :=
  mkState (st.(primary_token_reserve)) (st.(secondary_token_reserve))
    (st.(primary_token_id)) v (st.(total_lp_supply)) (st.(lp_tokens_issued))
    (st.(k_value)) (st.(lp_token_id)) (st.(lp_token_name))
    (st.(lp_token_symbol)) (st.(lp_token_decimals)) (st.(lp_token_url))
    (st.(swap_fee_bps)) (st.(protocol_fee_bps)) (st.(admin))
    (st.(treasury_address)) (st.(minimum_balance)) (st.(contract_ending))
    (st.(contract_version)).

Definition set_total_lp_supply (v : Z) (st : State) : State :=
  mkState (st.(primary_token_reserve)) (st.(secondary_token_reserve))
    (st.(primary_token_id)) (st.(secondary_token_id)) v
    (st.(lp_tokens_issued)) (st.(k_value)) (st.(lp_token_id))
    (st.(lp_token_name)) (st.(lp_token_symbol)) (st.(lp_token_decimals))
    (st.(lp_token_url)) (st.(swap_fee_bps)) (st.(protocol_fee_bps))
    (st.(admin)) (st.(treasury_address)) (st.(minimum_balance))
    (st.(contract_ending)) (st.(contract_version)).

Definition set_lp_tokens_issued (v : Z) (st : State) : State :=
  mkState (st.(primary_token_reserve)) (st.(secondary_token_reserve))
    (st.(primary_token_id)) (st.(secondary_token_id)) (st.(total_lp_supply))
    v (st.(k_value)) (st.(lp_token_id)) (st.(lp_token_name))
    (st.(lp_token_symbol)) (st.(lp_token_decimals)) (st.(lp_token_url))
    (st.(swap_fee_bps)) (st.(protocol_fee_bps)) (st.(admin))
    (st.(treasury_address)) (st.(minimum_balance)) (st.(contract_ending))
    (st.(contract_version)).

Definition set_k_value (v : Z) (st : State) : State :=
  mkState (st.(primary_token_reserve)) (st.(secondary_token_reserve))
    (st.(primary_token_id)) (st.(secondary_token_id)) (st.(total_lp_supply))
    (st.(lp_tokens_issued)) v (st.(lp_token_id)) (st.(lp_token_name))
    (st.(lp_token_symbol)) (st.(lp_token_decimals)) (st.(lp_token_url))
    (st.(swap_fee_bps)) (st.(protocol_fee_bps)) (st.(admin))
    (st.(treasury_address)) (st.(minimum_balance)) (st.(contract_ending))
    (st.(contract_version)).

Definition set_lp_token_id (v : Z) (st : State) : State :=
  mkState (st.(primary_token_reserve)) (st.(secondary_token_reserve))
    (st.(primary_token_id)) (st.(secondary_token_id)) (st.(total_lp_supply))
    (st.(lp_tokens_issued)) (st.(k_value)) v (st.(lp_token_name))
    (st.(lp_token_symbol)) (st.(lp_token_decimals)) (st.(lp_token_url))
    (st.(swap_fee_bps)) (st.(protocol_fee_bps)) (st.(admin))
    (st.(treasury_address)) (st.(minimum_balance)) (st.(contract_ending))
    (st.(contract_version)).

Definition set_lp_token_name (v : string) (st : State) : State :=
  mkState (st.(primary_token_reserve)) (st.(secondary_token_reserve))
    (st.(primary_token_id)) (st.(secondary_token_id)) (st.(total_lp_supply))
    (st.(lp_tokens_issued)) (st.(k_value)) (st.(lp_token_id)) v
    (st.(lp_token_symbol)) (st.(lp_token_decimals)) (st.(lp_token_url))
    (st.(swap_fee_bps)) (st.(protocol_fee_bps)) (st.(admin))
    (st.(treasury_address)) (st.(minimum_balance)) (st.(contract_ending))
    (st.(contract_version)).

Definition set_lp_token_symbol (v : string) (st : State) : State :=
  mkState (st.(primary_token_reserve)) (st.(secondary_token_reserve))
    (st.(primary_token_id)) (st.(secondary_token_id)) (st.(total_lp_supply))
    (st.(lp_tokens_issued)) (st.(k_value)) (st.(lp_token_id))
    (st.(lp_token_name)) v (st.(lp_token_decimals)) (st.(lp_token_url))
    (st.(swap_fee_bps)) (st.(protocol_fee_bps)) (st.(admin))
    (st.(treasury_address)) (st.(minimum_balance)) (st.(contract_ending))
    (st.(contract_version)).

Definition set_lp_token_decimals (v : Z) (st : State) : State :=
  mkState (st.(primary_token_reserve)) (st.(secondary_token_reserve))
    (st.(primary_token_id)) (st.(secondary_token_id)) (st.(total_lp_supply))
    (st.(lp_tokens_issued)) (st.(k_value)) (st.(lp_token_id))
    (st.(lp_token_name)) (st.(lp_token_symbol)) v (st.(lp_token_url))
    (st.(swap_fee_bps)) (st.(protocol_fee_bps)) (st.(admin))
    (st.(treasury_address)) (st.(minimum_balance)) (st.(contract_ending))
    (st.(contract_version)).

Definition set_lp_token_url (v : string) (st : State) : State :=
  mkState (st.(primary_token_reserve)) (st.(secondary_token_reserve))
    (st.(primary_token_id)) (st.(secondary_token_id)) (st.(total_lp_supply))
    (st.(lp_tokens_issued)) (st.(k_value)) (st.(lp_token_id))
    (st.(lp_token_name)) (st.(lp_token_symbol)) (st.(lp_token_decimals)) v
    (st.(swap_fee_bps)) (st.(protocol_fee_bps)) (st.(admin))
    (st.(treasury_address)) (st.(minimum_balance)) (st.(contract_ending))
    (st.(contract_version)).

Definition set_swap_fee_bps (v : Z) (st : State) : State :=
  mkState (st.(primary_token_reserve)) (st.(secondary_token_reserve))
    (st.(primary_token_id)) (st.(secondary_token_id)) (st.(total_lp_supply))
    (st.(lp_tokens_issued)) (st.(k_value)) (st.(lp_token_id))
    (st.(lp_token_name)) (st.(lp_token_symbol)) (st.(lp_token_decimals))
    (st.(lp_token_url)) v (st.(protocol_fee_bps)) (st.(admin))
    (st.(treasury_address)) (st.(minimum_balance)) (st.(contract_ending))
    (st.(contract_version)).

Definition set_protocol_fee_bps (v : Z) (st : State) : State :=
  mkState (st.(primary_token_reserve)) (st.(secondary_token_reserve))
    (st.(primary_token_id)) (st.(secondary_token_id)) (st.(total_lp_supply))
    (st.(lp_tokens_issued)) (st.(k_value)) (st.(lp_token_id))
    (st.(lp_token_name)) (st.(lp_token_symbol)) (st.(lp_token_decimals))
    (st.(lp_token_url)) (st.(swap_fee_bps)) v (st.(admin))
    (st.(treasury_address)) (st.(minimum_balance)) (st.(contract_ending))
    (st.(contract_version)).

Definition set_admin (v : Address) (st : State) : State :=
  mkState (st.(primary_token_reserve)) (st.(secondary_token_reserve))
    (st.(primary_token_id)) (st.(secondary_token_id)) (st.(total_lp_supply))
    (st.(lp_tokens_issued)) (st.(k_value)) (st.(lp_token_id))
    (st.(lp_token_name)) (st.(lp_token_symbol)) (st.(lp_token_decimals))
    (st.(lp_token_url)) (st.(swap_fee_bps)) (st.(protocol_fee_bps)) v
    (st.(treasury_address)) (st.(minimum_balance)) (st.(contract_ending))
    (st.(contract_version)).

Definition set_treasury_address (v : Address) (st : State) : State :=
  mkState (st.(primary_token_reserve)) (st.(secondary_token_reserve))
    (st.(primary_token_id)) (st.(secondary_token_id)) (st.(total_lp_supply))
    (st.(lp_tokens_issued)) (st.(k_value)) (st.(lp_token_id))
    (st.(lp_token_name)) (st.(lp_token_symbol)) (st.(lp_token_decimals))
    (st.(lp_token_url)) (st.(swap_fee_bps)) (st.(protocol_fee_bps))
    (st.(admin)) v (st.(minimum_balance)) (st.(contract_ending))
    (st.(contract_version)).

Definition set_minimum_balance (v : Z) (st : State) : State :=
  mkState (st.(primary_token_reserve)) (st.(secondary_token_reserve))
    (st.(primary_token_id)) (st.(secondary_token_id)) (st.(total_lp_supply))
    (st.(lp_tokens_issued)) (st.(k_value)) (st.(lp_token_id))
    (st.(lp_token_name)) (st.(lp_token_symbol)) (st.(lp_token_decimals))
    (st.(lp_token_url)) (st.(swap_fee_bps)) (st.(protocol_fee_bps))
    (st.(admin)) (st.(treasury_address)) v (st.(contract_ending))
    (st.(contract_version)).

Definition set_contract_ending (v : Z) (st : State) : State :=
  mkState (st.(primary_token_reserve)) (st.(secondary_token_reserve))
    (st.(primary_token_id)) (st.(secondary_token_id)) (st.(total_lp_supply))
    (st.(lp_tokens_issued)) (st.(k_value)) (st.(lp_token_id))
    (st.(lp_token_name)) (st.(lp_token_symbol)) (st.(lp_token_decimals))
    (st.(lp_token_url)) (st.(swap_fee_bps)) (st.(protocol_fee_bps))
    (st.(admin)) (st.(treasury_address)) (st.(minimum_balance)) v
    (st.(contract_version)).

Definition set_contract_version (v : Z) (st : State) : State :=
  mkState (st.(primary_token_reserve)) (st.(secondary_token_reserve))
    (st.(primary_token_id)) (st.(secondary_token_id)) (st.(total_lp_supply))
    (st.(lp_tokens_issued)) (st.(k_value)) (st.(lp_token_id))
    (st.(lp_token_name)) (st.(lp_token_symbol)) (st.(lp_token_decimals))
    (st.(lp_token_url)) (st.(swap_fee_bps)) (st.(protocol_fee_bps))
    (st.(admin)) (st.(treasury_address)) (st.(minimum_balance))
    (st.(contract_ending)) v.

(** ** Transactions *)

(** The application call being executed: [this.txn.sender],
    [this.app.address], and the identifier the ledger assigns to an asset
    created by this call (the value [sendAssetCreation] returns). *)
Record Context : Type := mkContext {
  sender : Address;
  app_address : Address;
  created_asset_id : Z
}.

(** A payment grouped with the call ([PayTxn]). *)
Record PayTxn : Type := mkPayTxn {
  pay_receiver : Address;
  pay_amount : Z
}.

(** An asset transfer grouped with the call ([AssetTransferTxn]). *)
Record AssetTransferTxn : Type := mkAssetTransferTxn {
  axfer_sender : Address;
  axfer_assetReceiver : Address;
  axfer_xferAsset : Z;
  axfer_assetAmount : Z
}.

(** Inner transactions a method submits.  They are collected in program
    order; the ledger executes them as part of the same atomic call, and
    the embedding takes them as accepted (a rejected inner transaction
    would revert the call like any other failure). *)
Inductive InnerTxn : Type :=
| AssetTransfer (xferAsset : Z) (assetReceiver : Address) (assetAmount : Z)
| Payment (receiver : Address) (amount : Z)
| AssetCreation (configAssetTotal configAssetDecimals : Z)
                (configAssetName configAssetUnitName configAssetURL : string).

(** [verifyPayTxn(txn, { receiver, amount })] *)
Definition verifyPayTxn (txn : PayTxn) (receiver : Address) (amount : Z) : Result unit :=
  assert ((txn.(pay_receiver) =? receiver)%string && (txn.(pay_amount) =? amount))
         PreconditionFailed.

(** [verifyAssetTransferTxn(txn, { sender, assetReceiver, xferAsset, assetAmount })] *)
Definition verifyAssetTransferTxn (txn : AssetTransferTxn)
    (snd assetReceiver : Address) (xferAsset assetAmount : Z) : Result unit :=
  assert ((txn.(axfer_sender) =? snd)%string &&
          (txn.(axfer_assetReceiver) =? assetReceiver)%string &&
          (txn.(axfer_xferAsset) =? xferAsset) &&
          (txn.(axfer_assetAmount) =? assetAmount))
         PreconditionFailed.

(** Pays [amount] of the asset [assetId] to [receiver]: an asset transfer,
    or a payment in the native currency when the identifier is [0]. *)
Definition sendAsset (assetId : Z) (receiver : Address) (amount : Z) : InnerTxn :=
  if assetId =? 0 then Payment receiver amount
  else AssetTransfer assetId receiver amount.

(** ** Lifecycle *)

(* Initializes admin to the creator of the application *)
Definition createApplication (ctx : Context) (st : State)
  : Result (State * list InnerTxn) :=
  Ok (set_admin ctx.(sender) st, []).

(* Prepares the application, including opting in to assets and creating the LP token *)
Definition initApplication (ctx : Context) (mbrTxn : PayTxn)
    (primaryAssetId secondaryAssetId : Z) (lpAssetName lpAssetURL : string)
    (swapFeeBps protocolFeeBps : Z) (treasuryAddress : Address) (st : State)
  : Result (State * list InnerTxn) :=
  _ <- assert (st.(admin) =? ctx.(sender))%string Unauthorized ;;
  let st := set_primary_token_reserve 0 st in
  let st := set_secondary_token_reserve 0 st in
  let st := set_total_lp_supply 0 st in
  let st := set_k_value 0 st in
  let st := set_lp_token_id 0 st in
  let st := set_lp_token_name lpAssetName st in
  let st := set_lp_token_symbol "MLP" st in
  let st := set_lp_token_decimals 6 st in
  let st := set_lp_token_url lpAssetURL st in
  let st := set_contract_version VERSION st in
  let st := set_minimum_balance (TOKEN_MBR * 4) st in
  let st := set_swap_fee_bps swapFeeBps st in
  let st := set_protocol_fee_bps protocolFeeBps st in
  let st := set_treasury_address treasuryAddress st in
  _ <- verifyPayTxn mbrTxn ctx.(app_address) (TOKEN_MBR * 4 + 3000) ;;
  let st := set_primary_token_id primaryAssetId st in
  let st := set_secondary_token_id secondaryAssetId st in
  (* opt in to primary and secondary tokens *)
  let optInPrimary := AssetTransfer st.(primary_token_id) ctx.(app_address) 0 in
  let optInSecondary := AssetTransfer st.(secondary_token_id) ctx.(app_address) 0 in
  (* mint LP tokens *)
  let lpCreation := AssetCreation LP_TOKEN_SUPPLY st.(lp_token_decimals)
                      st.(lp_token_name) st.(lp_token_symbol) st.(lp_token_url) in
  let st := set_lp_token_id ctx.(created_asset_id) st in
  let st := set_total_lp_supply LP_TOKEN_SUPPLY st in
  Ok (st, [optInPrimary; optInSecondary; lpCreation]).

(** ** Liquidity *)

(* Helper function returning the smaller of two values *)
Definition min (a b : Z) : Z := if a <? b then a else b.

(* Adds liquidity to the pool and mints the appropriate number of LP tokens *)
Definition addLiquidity (ctx : Context) (primaryAmount secondaryAmount : Z)
    (primaryAssetTransfer secondaryAssetTransfer : AssetTransferTxn) (st : State)
  : Result (State * list InnerTxn) :=
  let primaryReserve := st.(primary_token_reserve) in
  let secondaryReserve := st.(secondary_token_reserve) in
  let totalLPSupply := st.(total_lp_supply) in
  let lpTokensIssued := st.(lp_tokens_issued) in
  (* Ensure valid input amounts *)
  _ <- verifyAssetTransferTxn primaryAssetTransfer ctx.(sender) ctx.(app_address)
         st.(primary_token_id) primaryAmount ;;
  _ <- verifyAssetTransferTxn secondaryAssetTransfer ctx.(sender) ctx.(app_address)
         st.(secondary_token_id) secondaryAmount ;;
  lpTokensMinted <-
    (if lpTokensIssued =? 0 then
       (* Case 1: Initial Liquidity *)
       p <- mul64 primaryAmount secondaryAmount ;;
       Ok (sqrt p)
     else
       (* Case 2: Adding Liquidity (Matching Pool Ratio) *)
       mintFromPrimary <- wideRatio [primaryAmount; totalLPSupply] [primaryReserve] ;;
       n <- mul64 secondaryAmount totalLPSupply ;;
       mintFromSecondary <- wideRatio [n] [secondaryReserve] ;;
       Ok (min mintFromPrimary mintFromSecondary)) ;;
  (* Update the global state for reserves and total LP supply *)
  newPrimary <- add64 primaryReserve primaryAmount ;;
  newSecondary <- add64 secondaryReserve secondaryAmount ;;
  newSupply <- sub64 totalLPSupply lpTokensMinted ;;
  k <- mul64 newPrimary newSecondary ;;
  newIssued <- add64 lpTokensIssued lpTokensMinted ;;
  let st := set_primary_token_reserve newPrimary st in
  let st := set_secondary_token_reserve newSecondary st in
  let st := set_total_lp_supply newSupply st in
  let st := set_k_value k st in
  let st := set_lp_tokens_issued newIssued st in
  (* Mint LP tokens *)
  Ok (st, [AssetTransfer st.(lp_token_id) ctx.(sender) lpTokensMinted]).

Definition removeLiquidity (ctx : Context) (burnTxn : AssetTransferTxn)
    (lpTokensBurned : Z) (st : State)
  : Result (State * list InnerTxn) :=
  let primaryReserve := st.(primary_token_reserve) in
  let secondaryReserve := st.(secondary_token_reserve) in
  let totalLPSupply := st.(total_lp_supply) in
  (* Ensure valid LP token balance *)
  _ <- assert (0 <? lpTokensBurned) InvalidAmount ;;
  _ <- assert (lpTokensBurned <=? totalLPSupply) InsufficientSupply ;;
  _ <- verifyAssetTransferTxn burnTxn ctx.(sender) ctx.(app_address)
         st.(lp_token_id) lpTokensBurned ;;
  (* Calculate how much the user gets back *)
  primaryWithdrawn <- wideRatio [lpTokensBurned; primaryReserve] [totalLPSupply] ;;
  secondaryWithdrawn <- wideRatio [lpTokensBurned; secondaryReserve] [totalLPSupply] ;;
  (* Update global state (reduce reserves & total LP supply) *)
  newPrimary <- sub64 primaryReserve primaryWithdrawn ;;
  newSecondary <- sub64 secondaryReserve secondaryWithdrawn ;;
  reducedSupply <- sub64 totalLPSupply lpTokensBurned ;;
  k <- mul64 newPrimary newSecondary ;;
  (* Burn LP tokens *)
  restoredSupply <- add64 reducedSupply lpTokensBurned ;;
  newIssued <- sub64 st.(lp_tokens_issued) lpTokensBurned ;;
  let st := set_primary_token_reserve newPrimary st in
  let st := set_secondary_token_reserve newSecondary st in
  let st := set_total_lp_supply reducedSupply st in
  let st := set_k_value k st in
  let st := set_total_lp_supply restoredSupply st in
  let st := set_lp_tokens_issued newIssued st in
  (* Transfer primary and secondary back to user *)
  Ok (st, [sendAsset st.(primary_token_id) ctx.(sender) primaryWithdrawn;
           sendAsset st.(secondary_token_id) ctx.(sender) secondaryWithdrawn]).

(** ** Swap *)

(** The fee locals of [swap] (source lines 753-758). *)
Record FeeSplit : Type := mkFeeSplit {
  totalFee : Z;
  protocolFee : Z;
  lpFee : Z;
  inputAfterFee : Z
}.

(** The remaining locals of [swap] (source lines 761-770). *)
Record SwapQuote : Type := mkSwapQuote {
  fees : FeeSplit;
  outputAmount : Z;
  newReserveIn : Z;
  newReserveOut : Z
}.

(** Fee computation of [swap]: total swap fee, the protocol's subset of
    it, the remainder for the LPs, and the input left after the fee. *)
Definition swap_fees (inputAmount swapFeeBps protocolFeeBps : Z) : Result FeeSplit :=
  (* Calculate total swap fee *)
  tf <- wideRatio [inputAmount; swapFeeBps] [10000] ;;
  pf <- wideRatio [tf; protocolFeeBps] [swapFeeBps] ;;  (* Subset of total fee *)
  lf <- sub64 tf pf ;;                                   (* Remaining fee goes to LPs *)
  (* Deduct fee from input amount *)
  iaf <- sub64 inputAmount tf ;;
  Ok (mkFeeSplit tf pf lf iaf).

(** Pricing part of [swap]: fees, constant-product output, new reserves. *)
Definition swap_quote (inputAmount swapFeeBps protocolFeeBps reserveIn reserveOut : Z)
  : Result SwapQuote :=
  f <- swap_fees inputAmount swapFeeBps protocolFeeBps ;;
  (* Calculate output using constant product formula *)
  numerator <- mul64 reserveOut f.(inputAfterFee) ;;
  denominator <- add64 reserveIn f.(inputAfterFee) ;;
  out <- div64 numerator denominator ;;
  (* Ensure output is valid *)
  _ <- assert (0 <? out) SwapTooSmall ;;
  (* Update reserves *)
  s <- add64 reserveIn f.(inputAfterFee) ;;
  newIn <- add64 s f.(lpFee) ;;
  newOut <- sub64 reserveOut out ;;
  Ok (mkSwapQuote f out newIn newOut).

(* Swap function for swapping between two assets *)
(* swapType = 0 for Primary -> Secondary, 1 for Secondary -> Primary *)
Definition swap (ctx : Context) (inputAmount swapType : Z) (st : State)
  : Result (State * list InnerTxn) :=
  let primaryReserve := st.(primary_token_reserve) in
  let secondaryReserve := st.(secondary_token_reserve) in
  let swapFeeBps := st.(swap_fee_bps) in
  let protocolFeeBps := st.(protocol_fee_bps) in
  let protocolReceiver := st.(treasury_address) in
  (* Determine if swapping Primary -> Secondary or Secondary -> Primary *)
  r <- (if swapType =? 0 then Ok (primaryReserve, secondaryReserve)
        else if swapType =? 1 then Ok (secondaryReserve, primaryReserve)
        else Err InvalidSwapType) ;;
  let reserveIn := fst r in
  let reserveOut := snd r in
  (* Ensure input is valid *)
  _ <- assert (0 <? inputAmount) InvalidAmount ;;
  q <- swap_quote inputAmount swapFeeBps protocolFeeBps reserveIn reserveOut ;;
  let st :=
    if swapType =? 0 then
      set_secondary_token_reserve q.(newReserveOut)
        (set_primary_token_reserve q.(newReserveIn) st)
    else
      set_primary_token_reserve q.(newReserveOut)
        (set_secondary_token_reserve q.(newReserveIn) st) in
  (* Maintain constant product rule *)
  k <- mul64 q.(newReserveIn) q.(newReserveOut) ;;
  let st := set_k_value k st in
  (* Send protocol fee if applicable *)
  let feeTxns :=
    if 0 <? q.(fees).(protocolFee) then
      if swapType =? 0 then
        [sendAsset st.(primary_token_id) protocolReceiver q.(fees).(protocolFee)]
      else
        [sendAsset st.(secondary_token_id) protocolReceiver q.(fees).(protocolFee)]
    else [] in
  (* Send output asset to user *)
  let outTxns :=
    ((if swapType =? 0 then
       [sendAsset st.(secondary_token_id) ctx.(sender) q.(outputAmount)]
     else []) ++
    (if swapType =? 1 then
       [sendAsset st.(primary_token_id) ctx.(sender) q.(outputAmount)]
     else []))%list in
  Ok (st, (feeTxns ++ outTxns)%list).

(** ** Admin functions *)

(* Update the swap fee *)
Definition updateSwapFee (ctx : Context) (newFee : Z) (st : State)
  : Result (State * list InnerTxn) :=
  _ <- assert (st.(admin) =? ctx.(sender))%string Unauthorized ;;
  Ok (set_swap_fee_bps newFee st, []).

(* Update the protocol fee *)
Definition updateProtocolFee (ctx : Context) (newFee : Z) (st : State)
  : Result (State * list InnerTxn) :=
  _ <- assert (st.(admin) =? ctx.(sender))%string Unauthorized ;;
  Ok (set_protocol_fee_bps newFee st, []).

(* Update the admin address *)
Definition updateAdmin (ctx : Context) (newAdmin : Address) (st : State)
  : Result (State * list InnerTxn) :=
  _ <- assert (st.(admin) =? ctx.(sender))%string Unauthorized ;;
  Ok (set_admin newAdmin st, []).

(* Update the treasury address *)
Definition updateTreasury (ctx : Context) (newTreasury : Address) (st : State)
  : Result (State * list InnerTxn) :=
  _ <- assert (st.(admin) =? ctx.(sender))%string Unauthorized ;;
  Ok (set_treasury_address newTreasury st, []).

(* Update the minimum balance requirement *)
Definition updateMinimumBalance (ctx : Context) (newMBR : Z) (st : State)
  : Result (State * list InnerTxn) :=
  _ <- assert (st.(admin) =? ctx.(sender))%string Unauthorized ;;
  Ok (set_minimum_balance newMBR st, []).

Definition updateContractEnding (ctx : Context) (newEnding : Z) (st : State)
  : Result (State * list InnerTxn) :=
  _ <- assert (st.(admin) =? ctx.(sender))%string Unauthorized ;;
  Ok (set_contract_ending newEnding st, []).

(** ** Application calls and call sequences *)

(** The public methods with their ABI arguments. *)
Inductive Call : Type :=
| CreateApplication
| InitApplication (mbrTxn : PayTxn) (primaryAssetId secondaryAssetId : Z)
                  (lpAssetName lpAssetURL : string)
                  (swapFeeBps protocolFeeBps : Z) (treasuryAddress : Address)
| AddLiquidity (primaryAmount secondaryAmount : Z)
               (primaryAssetTransfer secondaryAssetTransfer : AssetTransferTxn)
| RemoveLiquidity (burnTxn : AssetTransferTxn) (lpTokensBurned : Z)
| Swap (inputAmount swapType : Z)
| UpdateSwapFee (newFee : Z)
| UpdateProtocolFee (newFee : Z)
| UpdateAdmin (newAdmin : Address)
| UpdateTreasury (newTreasury : Address)
| UpdateMinimumBalance (newMBR : Z)
| UpdateContractEnding (newEnding : Z).

Definition call (ctx : Context) (c : Call) (st : State)
  : Result (State * list InnerTxn) :=
  match c with
  | CreateApplication => createApplication ctx st
  | InitApplication mbrTxn p s name url sf pf t =>
      initApplication ctx mbrTxn p s name url sf pf t st
  | AddLiquidity pa sa pt stx => addLiquidity ctx pa sa pt stx st
  | RemoveLiquidity burnTxn n => removeLiquidity ctx burnTxn n st
  | Swap inputAmount swapType => swap ctx inputAmount swapType st
  | UpdateSwapFee v => updateSwapFee ctx v st
  | UpdateProtocolFee v => updateProtocolFee ctx v st
  | UpdateAdmin a => updateAdmin ctx a st
  | UpdateTreasury a => updateTreasury ctx a st
  | UpdateMinimumBalance v => updateMinimumBalance ctx v st
  | UpdateContractEnding v => updateContractEnding ctx v st
  end.

(** One atomic application call: the state a call leaves behind.  An
    aborted call reverts, so the state is the one before the call. *)
Definition step (st : State) (tx : Context * Call) : State :=
  match call (fst tx) (snd tx) st with
  | Ok (st', _) => st'
  | Err _ => st
  end.

Definition succeeds (st : State) (tx : Context * Call) : bool :=
  match call (fst tx) (snd tx) st with
  | Ok _ => true
  | Err _ => false
  end.

(** The state after a sequence of calls, each applied atomically. *)
Definition run (st : State) (txs : list (Context * Call)) : State :=
  fold_left step txs st.

(** The calls of a sequence paired with whether each one succeeded. *)
Fixpoint outcomes (st : State) (txs : list (Context * Call)) : list (Call * bool) :=
  match txs with
  | [] => []
  | tx :: rest => (snd tx, succeeds st tx) :: outcomes (step st tx) rest
  end.

Definition is_init (c : Call) : bool :=
  match c with InitApplication _ _ _ _ _ _ _ _ => true | _ => false end.

Definition is_trade (c : Call) : bool :=
  match c with
  | AddLiquidity _ _ _ _ | RemoveLiquidity _ _ | Swap _ _ => true
  | _ => false
  end.

(** Number of [initApplication] calls of a sequence that succeeded. *)
Definition successful_inits (log : list (Call * bool)) : nat :=
  List.length (filter (fun o => is_init (fst o) && snd o) log).

(** Whether some successful [initApplication] comes after a successful
    [addLiquidity], [removeLiquidity] or [swap]. *)
Fixpoint init_after_trade (log : list (Call * bool)) : bool :=
  match log with
  | [] => false
  | (c, ok) :: rest =>
      if is_trade c && ok
      then existsb (fun o => is_init (fst o) && snd o) rest || init_after_trade rest
      else init_after_trade rest
  end.

(** ** Scenarios

    The deployment used by the repository's tests: the deployer creates
    and initializes the pool with a 30 bps swap fee of which 5 bps go to
    the treasury, then a first provider deposits 100000 of each asset. *)
Module Scenario.

Definition deployer : Address := "deployer".
Definition treasury : Address := "treasury".
Definition provider : Address := "first-lp".
Definition trader : Address := "trader".
Definition pool : Address := "mamm-app".

Definition primaryAssetId : Z := 1001.
Definition secondaryAssetId : Z := 1002.
Definition lpAssetId : Z := 1003.

Definition as_ (who : Address) : Context := mkContext who pool lpAssetId.

Definition deposit (who : Address) (asset amount : Z) : AssetTransferTxn :=
  mkAssetTransferTxn who pool asset amount.

Definition init_call (swapFeeBps protocolFeeBps : Z) : Call :=
  InitApplication (mkPayTxn pool 403000) primaryAssetId secondaryAssetId
    "LP-Asset" "https://lp-asset-url.com" swapFeeBps protocolFeeBps treasury.

Definition add_call (who : Address) (primaryAmount secondaryAmount : Z) : Call :=
  AddLiquidity primaryAmount secondaryAmount
    (deposit who primaryAssetId primaryAmount)
    (deposit who secondaryAssetId secondaryAmount).

Definition remove_call (who : Address) (lpTokensBurned : Z) : Call :=
  RemoveLiquidity (deposit who lpAssetId lpTokensBurned) lpTokensBurned.

(** Created and initialized, no liquidity yet. *)
Definition initialized (swapFeeBps protocolFeeBps : Z) : State :=
  run empty_state
    [(as_ deployer, CreateApplication);
     (as_ deployer, init_call swapFeeBps protocolFeeBps)].

(** Initialized with fees 30 / 5 and funded with (100000, 100000). *)
Definition funded : State :=
  step (initialized 30 5) (as_ provider, add_call provider 100000 100000).

(** The same pool with the swap fee set to zero by the admin. *)
Definition funded_no_fee : State :=
  step funded (as_ deployer, UpdateSwapFee 0).

(** Initialization called again after liquidity was added; the ledger
    gives the second LP asset a fresh identifier. *)
Definition reinit_trace : list (Context * Call) :=
  [(as_ deployer, CreateApplication);
   (as_ deployer, init_call 30 5);
   (as_ provider, add_call provider 100000 100000);
   (mkContext deployer pool 1004, init_call 30 5)].

End Scenario.

(** ** Vocabulary of the properties *)

(** Reserve on the input side of a swap of the given direction. *)
Definition reserve_in (swapType : Z) (st : State) : Z :=
  if swapType =? 0 then st.(primary_token_reserve) else st.(secondary_token_reserve).

(** Reserve on the output side. *)
Definition reserve_out (swapType : Z) (st : State) : Z :=
  if swapType =? 0 then st.(secondary_token_reserve) else st.(primary_token_reserve).

(** LP tokens [addLiquidity] mints, as a function of the state it reads. *)
Definition minted_by_code (primaryAmount secondaryAmount : Z) (st : State) : Z :=
  if st.(lp_tokens_issued) =? 0 then sqrt (primaryAmount * secondaryAmount)
  else min (primaryAmount * st.(total_lp_supply) / st.(primary_token_reserve))
           (secondaryAmount * st.(total_lp_supply) / st.(secondary_token_reserve)).

(** The claim that a zero swap fee is guarded, as the specification words
    it: the fee computation yields a protocol fee of zero. *)
Definition zero_fee_guarded (st : State) (inputAmount : Z) : Prop :=
  exists f,
    swap_fees inputAmount st.(swap_fee_bps) st.(protocol_fee_bps) = Ok f /\
    f.(protocolFee) = 0.

(** Every successful [initApplication] of a call sequence was sent by the
    admin of the state it ran in. *)
Fixpoint inits_by_admin (st : State) (txs : list (Context * Call)) : Prop :=
  match txs with
  | [] => True
  | tx :: rest =>
      (is_init (snd tx) = true -> succeeds st tx = true ->
       (fst tx).(sender) = st.(admin)) /\
      inits_by_admin (step st tx) rest
  end.

(** The global keys, and what each one holds, for frame statements. *)
Inductive Field : Type :=
| F_primary_token_reserve | F_secondary_token_reserve
| F_primary_token_id | F_secondary_token_id
| F_total_lp_supply | F_lp_tokens_issued | F_k_value
| F_lp_token_id | F_lp_token_name | F_lp_token_symbol
| F_lp_token_decimals | F_lp_token_url
| F_swap_fee_bps | F_protocol_fee_bps
| F_admin | F_treasury_address
| F_minimum_balance | F_contract_ending | F_contract_version.

Inductive Value : Type :=
| VUint (n : Z)
| VBytes (s : string).

Definition read (f : Field) (st : State) : Value :=
  match f with
  | F_primary_token_reserve => VUint st.(primary_token_reserve)
  | F_secondary_token_reserve => VUint st.(secondary_token_reserve)
  | F_primary_token_id => VUint st.(primary_token_id)
  | F_secondary_token_id => VUint st.(secondary_token_id)
  | F_total_lp_supply => VUint st.(total_lp_supply)
  | F_lp_tokens_issued => VUint st.(lp_tokens_issued)
  | F_k_value => VUint st.(k_value)
  | F_lp_token_id => VUint st.(lp_token_id)
  | F_lp_token_name => VBytes st.(lp_token_name)
  | F_lp_token_symbol => VBytes st.(lp_token_symbol)
  | F_lp_token_decimals => VUint st.(lp_token_decimals)
  | F_lp_token_url => VBytes st.(lp_token_url)
  | F_swap_fee_bps => VUint st.(swap_fee_bps)
  | F_protocol_fee_bps => VUint st.(protocol_fee_bps)
  | F_admin => VBytes st.(admin)
  | F_treasury_address => VBytes st.(treasury_address)
  | F_minimum_balance => VUint st.(minimum_balance)
  | F_contract_ending => VUint st.(contract_ending)
  | F_contract_version => VUint st.(contract_version)
  end.

(** An admin-gated update of one key: a call [c] from anyone but the admin
    fails with [Unauthorized] and leaves the state as it was; from the
    admin it succeeds without inner transactions, the key [f] then holds
    [v] and every other key holds what it held. *)
Definition admin_overwrites (c : Call) (f : Field) (v : Value) : Prop :=
  forall (ctx : Context) (st : State),
    (ctx.(sender) <> st.(admin) ->
     call ctx c st = Err Unauthorized /\ step st (ctx, c) = st) /\
    (ctx.(sender) = st.(admin) ->
     exists st',
       call ctx c st = Ok (st', []) /\ step st (ctx, c) = st' /\
       read f st' = v /\
       forall g, g <> f -> read g st' = read g st).

(** ** Vocabulary of the further properties *)

(** The uint64 arguments of a call are in range, as the ABI decoding of
    the call guarantees, and so is the identifier the ledger gives to an
    asset the call creates. *)
Definition args_uint64 (ctx : Context) (c : Call) : Prop :=
  match c with
  | CreateApplication => True
  | InitApplication _ primaryAssetId secondaryAssetId _ _ swapFeeBps protocolFeeBps _ =>
      uint64 primaryAssetId /\ uint64 secondaryAssetId /\
      uint64 swapFeeBps /\ uint64 protocolFeeBps /\
      uint64 ctx.(created_asset_id)
  | AddLiquidity primaryAmount secondaryAmount _ _ =>
      uint64 primaryAmount /\ uint64 secondaryAmount
  | RemoveLiquidity _ lpTokensBurned => uint64 lpTokensBurned
  | Swap inputAmount swapType => uint64 inputAmount /\ uint64 swapType
  | UpdateSwapFee newFee => uint64 newFee
  | UpdateProtocolFee newFee => uint64 newFee
  | UpdateAdmin _ => True
  | UpdateTreasury _ => True
  | UpdateMinimumBalance newMBR => uint64 newMBR
  | UpdateContractEnding newEnding => uint64 newEnding
  end.

(** [k_value] is the product of the two reserves. *)
Definition k_consistent (st : State) : Prop :=
  st.(k_value) = st.(primary_token_reserve) * st.(secondary_token_reserve).

(** Asset paid in by a swap of the given direction. *)
Definition asset_in (swapType : Z) (st : State) : Z :=
  if swapType =? 0 then st.(primary_token_id) else st.(secondary_token_id).

(** Asset paid out. *)
Definition asset_out (swapType : Z) (st : State) : Z :=
  if swapType =? 0 then st.(secondary_token_id) else st.(primary_token_id).

(** The keys only the admin functions write. *)
Definition is_config (f : Field) : bool :=
  match f with
  | F_admin | F_treasury_address | F_swap_fee_bps | F_protocol_fee_bps
  | F_minimum_balance | F_contract_ending => true
  | _ => false
  end.

(** The keys [swap] writes. *)
Definition swap_key (f : Field) : bool :=
  match f with
  | F_primary_token_reserve | F_secondary_token_reserve | F_k_value => true
  | _ => false
  end.

(** The keys [addLiquidity] and [removeLiquidity] write. *)
Definition liquidity_key (f : Field) : bool :=
  match f with
  | F_primary_token_reserve | F_secondary_token_reserve | F_k_value
  | F_total_lp_supply | F_lp_tokens_issued => true
  | _ => false
  end.

(** The six admin updates. *)
Definition is_admin_update (c : Call) : bool :=
  match c with
  | UpdateSwapFee _ | UpdateProtocolFee _ | UpdateAdmin _ | UpdateTreasury _
  | UpdateMinimumBalance _ | UpdateContractEnding _ => true
  | _ => false
  end.

(** The same pool with the roles of the primary and the secondary asset
    exchanged. *)
Definition mirror (st : State) : State :=
  mkState st.(secondary_token_reserve) st.(primary_token_reserve)
    st.(secondary_token_id) st.(primary_token_id)
    st.(total_lp_supply) st.(lp_tokens_issued) st.(k_value)
    st.(lp_token_id) st.(lp_token_name) st.(lp_token_symbol)
    st.(lp_token_decimals) st.(lp_token_url)
    st.(swap_fee_bps) st.(protocol_fee_bps) st.(admin)
    st.(treasury_address) st.(minimum_balance) st.(contract_ending)
    st.(contract_version).

(** ** Deletion

    [deleteApplication] ends with a call to itself, and nothing before
    that call returns.  [depth] bounds the nesting the AVM grants a call:
    with none left the call is cut off. *)

(** Why [deleteApplication] stops at one of its own checks. *)
Inductive DeleteFailure : Type :=
| NotAdmin                  (* 'Only admin can delete the application' *)
| NotEnding                 (* 'Contract needs to be ending first' *)
| PrimaryReserveNotEmpty    (* 'Primary reserve must be empty' *)
| SecondaryReserveNotEmpty. (* 'Secondary reserve must be empty' *)

(** An asset transfer that closes the holding out to [assetCloseTo]. *)
Inductive CloseOut : Type :=
| AssetCloseOut (xferAsset : Z) (assetReceiver : Address) (assetAmount : Z)
                (assetCloseTo : Address).

Inductive DeleteOutcome : Type :=
| Rejected (why : DeleteFailure)               (* an assertion failed *)
| Returned (txns : list CloseOut) (st : State) (* the method ran to its end *)
| CutOff.                                      (* the nesting was used up *)

Fixpoint deleteApplication (depth : nat) (ctx : Context) (st : State)
  : DeleteOutcome :=
  match depth with
  | O => CutOff
  | S depth =>
      if negb (st.(admin) =? ctx.(sender))%string then Rejected NotAdmin
      else if negb (st.(contract_ending) =? 1) then Rejected NotEnding
      else if negb (st.(primary_token_reserve) =? 0)
      then Rejected PrimaryReserveNotEmpty
      else if negb (st.(secondary_token_reserve) =? 0)
      then Rejected SecondaryReserveNotEmpty
      else
        (* opt out of primary and secondary *)
        let closePrimary :=
          AssetCloseOut st.(primary_token_id) st.(admin) 0 st.(admin) in
        let closeSecondary :=
          AssetCloseOut st.(secondary_token_id) st.(admin) 0 st.(admin) in
        let st := set_minimum_balance (TOKEN_MBR * 2) st in
        match deleteApplication depth ctx st with
        | Rejected why => Rejected why
        | Returned txns st => Returned (closePrimary :: closeSecondary :: txns) st
        | CutOff => CutOff
        end
  end.

(** * Properties *)

(** ** Inversion of the error monad and of the checked arithmetic *)

Lemma bind_Ok {A B : Type} (c : Result A) (k : A -> Result B) (b : B) :
  bind c k = Ok b -> exists a, c = Ok a /\ k a = Ok b.
Proof.
  destruct c as [a | e]; simpl; intros H.
  - exists a. split; [reflexivity | exact H].
  - discriminate H.
Qed.

Lemma assert_Ok (cond : bool) (e : Error) (u : unit) :
  assert cond e = Ok u -> cond = true.
Proof. destruct cond; simpl; [reflexivity | discriminate]. Qed.

Lemma add64_Ok (a b r : Z) :
  add64 a b = Ok r -> r = a + b /\ a + b <= MAX_UINT64.
Proof.
  unfold add64. destruct (a + b <=? MAX_UINT64) eqn:E; intros H; inversion H.
  apply Z.leb_le in E. split; [reflexivity | exact E].
Qed.

Lemma sub64_Ok (a b r : Z) :
  sub64 a b = Ok r -> r = a - b /\ b <= a.
Proof.
  unfold sub64. destruct (b <=? a) eqn:E; intros H; inversion H.
  apply Z.leb_le in E. split; [reflexivity | exact E].
Qed.

Lemma mul64_Ok (a b r : Z) :
  mul64 a b = Ok r -> r = a * b /\ a * b <= MAX_UINT64.
Proof.
  unfold mul64. destruct (a * b <=? MAX_UINT64) eqn:E; intros H; inversion H.
  apply Z.leb_le in E. split; [reflexivity | exact E].
Qed.

Lemma div64_Ok (a b r : Z) :
  div64 a b = Ok r -> r = a / b /\ b <> 0.
Proof.
  unfold div64. destruct (b =? 0) eqn:E; intros H; inversion H.
  apply Z.eqb_neq in E. split; [reflexivity | exact E].
Qed.

Lemma wideRatio_Ok (a b d r : Z) :
  wideRatio [a; b] [d] = Ok r ->
  r = a * b / d /\ d <> 0 /\ a * b / d <= MAX_UINT64.
Proof.
  unfold wideRatio, product. simpl fold_right.
  rewrite !Z.mul_1_r.
  destruct (d =? 0) eqn:E; [discriminate |].
  destruct (a * b / d <=? MAX_UINT64) eqn:F; intros H; inversion H.
  apply Z.eqb_neq in E. apply Z.leb_le in F. auto.
Qed.

Lemma wideRatio_eval (a b d : Z) :
  d <> 0 -> a * b / d <= MAX_UINT64 -> wideRatio [a; b] [d] = Ok (a * b / d).
Proof.
  intros Hd Hq. unfold wideRatio, product. simpl fold_right.
  rewrite !Z.mul_1_r.
  apply Z.eqb_neq in Hd. rewrite Hd.
  apply Z.leb_le in Hq. rewrite Hq. reflexivity.
Qed.

Lemma sub64_eval (a b : Z) : b <= a -> sub64 a b = Ok (a - b).
Proof. intros H. unfold sub64. apply Z.leb_le in H. rewrite H. reflexivity. Qed.

(** Peels one successful [bind] (or [assert]) off a hypothesis. *)
Tactic Notation "inv_bind" hyp(H) "as" ident(a) ident(Ha) :=
  apply bind_Ok in H; destruct H as (a & Ha & H).

(** ** Swap: inversion of a successful call *)

Lemma swap_fees_Ok (inputAmount swapFeeBps protocolFeeBps : Z) (f : FeeSplit) :
  swap_fees inputAmount swapFeeBps protocolFeeBps = Ok f ->
  let tf := inputAmount * swapFeeBps / 10000 in
  let pf := tf * protocolFeeBps / swapFeeBps in
  f = mkFeeSplit tf pf (tf - pf) (inputAmount - tf) /\
  swapFeeBps <> 0 /\ pf <= tf /\ tf <= inputAmount.
Proof.
  unfold swap_fees. intros H.
  inv_bind H as tf Htf. apply wideRatio_Ok in Htf as (-> & _ & _).
  inv_bind H as pf Hpf. apply wideRatio_Ok in Hpf as (-> & Hs & _).
  inv_bind H as lf Hlf. apply sub64_Ok in Hlf as (-> & Hpf).
  inv_bind H as iaf Hiaf. apply sub64_Ok in Hiaf as (-> & Htf).
  inversion H. auto.
Qed.

Lemma swap_quote_Ok (inputAmount swapFeeBps protocolFeeBps reserveIn reserveOut : Z)
    (q : SwapQuote) :
  swap_quote inputAmount swapFeeBps protocolFeeBps reserveIn reserveOut = Ok q ->
  let tf := inputAmount * swapFeeBps / 10000 in
  let pf := tf * protocolFeeBps / swapFeeBps in
  let lf := tf - pf in
  let iaf := inputAmount - tf in
  let out := reserveOut * iaf / (reserveIn + iaf) in
  q = mkSwapQuote (mkFeeSplit tf pf lf iaf) out (reserveIn + iaf + lf) (reserveOut - out) /\
  swapFeeBps <> 0 /\ 0 <= lf /\ 0 <= iaf /\
  reserveIn + iaf <> 0 /\ 0 < out /\ out <= reserveOut.
Proof.
  unfold swap_quote. intros H.
  inv_bind H as f Hf. apply swap_fees_Ok in Hf as (-> & Hs & Hpf & Htf). simpl in H.
  inv_bind H as num Hnum. apply mul64_Ok in Hnum as (-> & _).
  inv_bind H as den Hden. apply add64_Ok in Hden as (-> & _).
  inv_bind H as o Ho. apply div64_Ok in Ho as (-> & Hden).
  inv_bind H as u Hpos. apply assert_Ok in Hpos. apply Z.ltb_lt in Hpos.
  inv_bind H as s Hsum. apply add64_Ok in Hsum as (-> & _).
  inv_bind H as newIn HnewIn. apply add64_Ok in HnewIn as (-> & _).
  inv_bind H as newOut HnewOut. apply sub64_Ok in HnewOut as (-> & Hout).
  inversion H. repeat split; auto; lia.
Qed.

(** What a successful [swap] did: the direction is valid, the input is
    positive, the pricing succeeded, and the state carries the quoted
    reserves and their product. *)
Lemma swap_Ok (ctx : Context) (inputAmount swapType : Z) (st st' : State)
    (txns : list InnerTxn) :
  swap ctx inputAmount swapType st = Ok (st', txns) ->
  exists q,
    (swapType = 0 \/ swapType = 1) /\ 0 < inputAmount /\
    swap_quote inputAmount st.(swap_fee_bps) st.(protocol_fee_bps)
      (reserve_in swapType st) (reserve_out swapType st) = Ok q /\
    reserve_in swapType st' = q.(newReserveIn) /\
    reserve_out swapType st' = q.(newReserveOut) /\
    st'.(k_value) = q.(newReserveIn) * q.(newReserveOut) /\
    In (sendAsset (if swapType =? 0 then st.(secondary_token_id)
                   else st.(primary_token_id))
                  ctx.(sender) q.(outputAmount)) txns.
Proof.
  unfold swap, reserve_in, reserve_out. intros H.
  inv_bind H as v Hv.
  assert (Hdir : (swapType = 0 \/ swapType = 1) /\
                 v = (if swapType =? 0
                      then (primary_token_reserve st, secondary_token_reserve st)
                      else (secondary_token_reserve st, primary_token_reserve st))).
  { destruct (swapType =? 0) eqn:E0.
    - apply Z.eqb_eq in E0. inversion Hv. auto.
    - destruct (swapType =? 1) eqn:E1; [| discriminate].
      apply Z.eqb_eq in E1. inversion Hv. auto. }
  destruct Hdir as (Hdir & ->). clear Hv.
  inv_bind H as u Hpos. apply assert_Ok in Hpos. apply Z.ltb_lt in Hpos.
  inv_bind H as q Hq.
  inv_bind H as k Hk. apply mul64_Ok in Hk as (-> & _).
  inversion H; subst st' txns. clear H.
  exists q. split; [exact Hdir |]. split; [exact Hpos |].
  destruct Hdir as [-> | ->]; simpl in *;
    (split; [exact Hq |]); repeat split; try reflexivity;
    apply in_or_app; right; simpl; auto.
Qed.

(** ** Swap pricing *)

(** C1. A successful [swap] prices the trade by the constant-product
    formula: [totalFee = floor(inputAmount * swapFeeBps / 10000)],
    [inputAfterFee = inputAmount - totalFee],
    [outputAmount = floor(reserveOut * inputAfterFee / (reserveIn + inputAfterFee))],
    and it commits [reserveIn + inputAfterFee + lpFee] and
    [reserveOut - outputAmount] with [lpFee = totalFee - protocolFee].
    In particular, with fees 30 / 5 and reserves (100000, 100000), swapping
    1000 primary for secondary succeeds with fees 3 = 0 + 3, input after
    fee 997, output 987 and new reserves (101000, 99013). *)
Theorem swap_constant_product_quote (ctx : Context) (inputAmount swapType : Z)
    (st : State) :
  (forall st' txns,
     swap ctx inputAmount swapType st = Ok (st', txns) ->
     let reserveIn := reserve_in swapType st in
     let reserveOut := reserve_out swapType st in
     let tf := inputAmount * st.(swap_fee_bps) / 10000 in
     let pf := tf * st.(protocol_fee_bps) / st.(swap_fee_bps) in
     let lf := tf - pf in
     let iaf := inputAmount - tf in
     let out := reserveOut * iaf / (reserveIn + iaf) in
     swap_quote inputAmount st.(swap_fee_bps) st.(protocol_fee_bps) reserveIn reserveOut
       = Ok (mkSwapQuote (mkFeeSplit tf pf lf iaf) out
                         (reserveIn + iaf + lf) (reserveOut - out)) /\
     reserve_in swapType st' = reserveIn + iaf + lf /\
     reserve_out swapType st' = reserveOut - out /\
     In (sendAsset (if swapType =? 0 then st.(secondary_token_id)
                    else st.(primary_token_id)) ctx.(sender) out) txns) /\
  (inputAmount = 1000 -> swapType = 0 ->
   st.(swap_fee_bps) = 30 -> st.(protocol_fee_bps) = 5 ->
   st.(primary_token_reserve) = 100000 -> st.(secondary_token_reserve) = 100000 ->
   swap_quote 1000 30 5 100000 100000
     = Ok (mkSwapQuote (mkFeeSplit 3 0 3 997) 987 101000 99013) /\
   exists st' txns,
     swap ctx inputAmount swapType st = Ok (st', txns) /\
     st'.(primary_token_reserve) = 101000 /\
     st'.(secondary_token_reserve) = 99013).
Proof.
  split.
  - intros st' txns H.
    apply swap_Ok in H as (q & _ & _ & Hq & Hin & Hout & _ & Htx).
    pose proof (swap_quote_Ok _ _ _ _ _ _ Hq) as (Eq & _).
    cbv zeta. rewrite Hq, Hin, Hout. rewrite Eq in Htx |- *. simpl in *.
    repeat split; auto.
  - intros -> -> Hs Hp Hpr Hsr. split; [reflexivity |].
    destruct st; simpl in *; subst.
    eexists; eexists. split; [reflexivity |]. split; reflexivity.
Qed.

Lemma swap_constant_product_quote_witness :
  exists st' txns,
    swap (Scenario.as_ Scenario.trader) 1000 0 Scenario.funded = Ok (st', txns) /\
    reserve_in 0 st' = 101000 /\ reserve_out 0 st' = 99013 /\
    In (AssetTransfer 1002 Scenario.trader 987) txns.
Proof.
  pose proof (swap_constant_product_quote
                (Scenario.as_ Scenario.trader) 1000 0 Scenario.funded) as [Hgen Hpart].
  destruct (Hpart eq_refl eq_refl eq_refl eq_refl eq_refl eq_refl)
    as (_ & st' & txns & Hok & _ & _).
  exists st', txns. split; [exact Hok |].
  destruct (Hgen st' txns Hok) as (_ & Hin & Hout & Htx).
  split; [exact Hin |]. split; [exact Hout | exact Htx].
Defined.

(** C5. Invariant growth: a successful [swap] in a state with a positive
    swap fee and positive reserves does not decrease the product of the
    reserves. *)
Theorem swap_invariant_growth (ctx : Context) (inputAmount swapType : Z)
    (st st' : State) (txns : list InnerTxn) :
  swap ctx inputAmount swapType st = Ok (st', txns) ->
  0 < st.(swap_fee_bps) ->
  0 < st.(primary_token_reserve) ->
  0 < st.(secondary_token_reserve) ->
  reserve_in swapType st' * reserve_out swapType st'
    >= reserve_in swapType st * reserve_out swapType st.
Proof.
  intros H _ Hp Hs.
  apply swap_Ok in H as (q & Hdir & _ & Hq & -> & -> & _).
  apply swap_quote_Ok in Hq as (-> & _ & Hlf & Hiaf & _ & _ & Hout).
  cbn [newReserveIn newReserveOut].
  set (rin := reserve_in swapType st) in *.
  set (rout := reserve_out swapType st) in *.
  assert (Hrin : 0 < rin)
    by (subst rin; unfold reserve_in; destruct (swapType =? 0); assumption).
  assert (Hrout : 0 < rout)
    by (subst rout; unfold reserve_out; destruct (swapType =? 0); assumption).
  set (tf := inputAmount * swap_fee_bps st / 10000) in *.
  set (lf := tf - tf * protocol_fee_bps st / swap_fee_bps st) in *.
  set (iaf := inputAmount - tf) in *.
  set (out := rout * iaf / (rin + iaf)) in *.
  assert (Hfloor : (rin + iaf) * out <= rout * iaf)
    by (subst out; apply Z.mul_div_le; lia).
  nia.
Qed.

Lemma swap_invariant_growth_witness :
  exists st' txns,
    swap (Scenario.as_ Scenario.trader) 1000 0 Scenario.funded = Ok (st', txns) /\
    reserve_in 0 st' * reserve_out 0 st' >= 100000 * 100000.
Proof.
  eexists; eexists. split; [reflexivity |].
  apply (swap_invariant_growth (Scenario.as_ Scenario.trader) 1000 0 Scenario.funded
           _ _ eq_refl); vm_compute; reflexivity.
Defined.

(** ** Swap fees *)

Lemma div_le_when_scaled (a s d : Z) :
  0 <= a -> 0 <= s <= d -> 0 < d -> 0 <= a * s / d <= a.
Proof.
  intros Ha Hs Hd. split.
  - apply Z.div_pos; nia.
  - apply Z.div_le_upper_bound; nia.
Qed.

(** The fee computation on a basis-point domain: either it yields a
    conserving split of uint64 values, or the swap fee is zero and it
    stops at the division. *)
Lemma swap_fees_cases (inputAmount swapFeeBps protocolFeeBps : Z) :
  uint64 inputAmount ->
  0 <= protocolFeeBps <= swapFeeBps ->
  swapFeeBps <= 10000 ->
  match swap_fees inputAmount swapFeeBps protocolFeeBps with
  | Ok f =>
      f.(totalFee) = inputAmount * swapFeeBps / 10000 /\
      f.(protocolFee) = f.(totalFee) * protocolFeeBps / swapFeeBps /\
      f.(protocolFee) <= f.(totalFee) /\
      f.(lpFee) + f.(protocolFee) = f.(totalFee) /\
      f.(totalFee) <= inputAmount /\
      f.(inputAfterFee) + f.(totalFee) = inputAmount /\
      uint64 f.(totalFee) /\ uint64 f.(protocolFee) /\
      uint64 f.(lpFee) /\ uint64 f.(inputAfterFee)
  | Err e => e = DivisionByZero /\ swapFeeBps = 0
  end.
Proof.
  unfold uint64. intros Hin Hp Hs.
  pose proof (div_le_when_scaled inputAmount swapFeeBps 10000) as Htf.
  unfold swap_fees.
  rewrite (wideRatio_eval inputAmount swapFeeBps 10000) by lia. cbn [bind].
  set (tf := inputAmount * swapFeeBps / 10000) in *.
  destruct (Z.eq_dec swapFeeBps 0) as [E | E].
  - rewrite E. unfold wideRatio, product. simpl. auto.
  - pose proof (div_le_when_scaled tf protocolFeeBps swapFeeBps) as Hpf.
    rewrite (wideRatio_eval tf protocolFeeBps swapFeeBps) by lia. cbn [bind].
    set (pf := tf * protocolFeeBps / swapFeeBps) in *.
    rewrite (sub64_eval tf pf) by lia. cbn [bind].
    rewrite (sub64_eval inputAmount tf) by lia. cbn [bind].
    cbn [totalFee protocolFee lpFee inputAfterFee].
    repeat split; lia.
Qed.

(** On the same domain and with non-negative reserves, no subtraction of
    the pricing underflows. *)
Lemma swap_quote_no_underflow
    (inputAmount swapFeeBps protocolFeeBps reserveIn reserveOut : Z) :
  uint64 inputAmount ->
  0 <= protocolFeeBps <= swapFeeBps ->
  swapFeeBps <= 10000 ->
  0 <= reserveIn -> 0 <= reserveOut ->
  swap_quote inputAmount swapFeeBps protocolFeeBps reserveIn reserveOut
    <> Err ArithmeticUnderflow.
Proof.
  intros Hin Hp Hs Hri Hro.
  pose proof (swap_fees_cases inputAmount swapFeeBps protocolFeeBps Hin Hp Hs) as Hf.
  unfold swap_quote.
  destruct (swap_fees inputAmount swapFeeBps protocolFeeBps) as [f | e]; cbn [bind].
  2: { destruct Hf as (-> & _). discriminate. }
  destruct Hf as (_ & _ & _ & _ & Htf & Hiaf & _ & _ & _ & (Hiaf0 & _)).
  unfold mul64. destruct (_ <=? MAX_UINT64); cbn [bind]; [| discriminate].
  unfold add64 at 1. destruct (_ <=? MAX_UINT64); cbn [bind]; [| discriminate].
  unfold div64. destruct (reserveIn + inputAfterFee f =? 0) eqn:Hden;
    cbn [bind]; [discriminate |].
  apply Z.eqb_neq in Hden.
  destruct (0 <? _); cbn [assert bind]; [| discriminate].
  unfold add64 at 1. destruct (_ <=? MAX_UINT64); cbn [bind]; [| discriminate].
  unfold add64 at 1. destruct (_ <=? MAX_UINT64); cbn [bind]; [| discriminate].
  pose proof (div_le_when_scaled reserveOut (inputAfterFee f)
                (reserveIn + inputAfterFee f)) as Hout.
  rewrite sub64_eval by lia. discriminate.
Qed.

(** C10. With [protocol_fee_bps <= swap_fee_bps <= 10000] the fee split of
    [swap] never overflows or underflows: whenever it is produced it
    satisfies [protocolFee <= totalFee], [lpFee + protocolFee = totalFee],
    [totalFee <= inputAmount], [inputAfterFee + totalFee = inputAmount],
    every value being a uint64, and it is produced for every positive swap
    fee (with a zero swap fee the computation stops at the division).
    No swap call in such a state fails on a subtraction. *)
Theorem swap_fee_split_conserving (st : State) (inputAmount : Z) :
  uint64 inputAmount ->
  wf_state st ->
  st.(protocol_fee_bps) <= st.(swap_fee_bps) ->
  st.(swap_fee_bps) <= 10000 ->
  match swap_fees inputAmount st.(swap_fee_bps) st.(protocol_fee_bps) with
  | Ok f =>
      f.(totalFee) = inputAmount * st.(swap_fee_bps) / 10000 /\
      f.(protocolFee) = f.(totalFee) * st.(protocol_fee_bps) / st.(swap_fee_bps) /\
      f.(protocolFee) <= f.(totalFee) /\
      f.(lpFee) + f.(protocolFee) = f.(totalFee) /\
      f.(totalFee) <= inputAmount /\
      f.(inputAfterFee) + f.(totalFee) = inputAmount /\
      uint64 f.(totalFee) /\ uint64 f.(protocolFee) /\
      uint64 f.(lpFee) /\ uint64 f.(inputAfterFee)
  | Err e => e = DivisionByZero /\ st.(swap_fee_bps) = 0
  end /\
  (forall ctx swapType,
     swap ctx inputAmount swapType st <> Err ArithmeticUnderflow).
Proof.
  intros Hin Hwf Hp Hs.
  destruct Hwf as ((Hpr & _) & (Hsr & _) & _ & _ & _ & _ & _ & _ & _ & _ &
                   (Hpf & _) & _).
  split; [apply swap_fees_cases; [assumption | lia | assumption] |].
  intros ctx swapType. unfold swap.
  assert (Hq : forall rin rout, 0 <= rin -> 0 <= rout ->
             swap_quote inputAmount (swap_fee_bps st) (protocol_fee_bps st) rin rout
               <> Err ArithmeticUnderflow)
    by (intros; apply swap_quote_no_underflow; [assumption | lia | assumption ..]).
  destruct (swapType =? 0); [| destruct (swapType =? 1)]; cbn [bind fst snd];
    try discriminate;
    (destruct (0 <? inputAmount); cbn [assert bind]; [| discriminate]);
    match goal with
    | |- context [swap_quote _ _ _ ?rin ?rout] =>
        specialize (Hq rin rout ltac:(assumption) ltac:(assumption));
        destruct (swap_quote inputAmount (swap_fee_bps st) (protocol_fee_bps st) rin rout)
          as [q | e]; cbn [bind]
    end;
    try (intros He; apply Hq; inversion He; reflexivity);
    unfold mul64; destruct (_ <=? MAX_UINT64); cbn [bind]; discriminate.
Qed.

Lemma swap_fee_split_conserving_witness :
  swap_fees 1000 30 5 = Ok (mkFeeSplit 3 0 3 997) /\
  0 <= 3 /\ 3 + 0 = 3 /\ 3 <= 1000 /\ 997 + 3 = 1000 /\
  swap (Scenario.as_ Scenario.trader) 1000 0 Scenario.funded
    <> Err ArithmeticUnderflow.
Proof.
  split; [reflexivity |].
  assert (Hu : uint64 1000) by (unfold uint64, MAX_UINT64; lia).
  assert (Hwf : wf_state Scenario.funded)
    by (unfold wf_state, uint64; vm_compute; repeat split; discriminate).
  assert (Hb : protocol_fee_bps Scenario.funded <= swap_fee_bps Scenario.funded)
    by (vm_compute; discriminate).
  assert (Hs : swap_fee_bps Scenario.funded <= 10000) by (vm_compute; discriminate).
  pose proof (swap_fee_split_conserving Scenario.funded 1000 Hu Hwf Hb Hs) as (H & Hsub).
  change (swap_fees 1000 (swap_fee_bps Scenario.funded)
            (protocol_fee_bps Scenario.funded))
    with (Ok (mkFeeSplit 3 0 3 997)) in H.
  cbn [totalFee protocolFee lpFee inputAfterFee] in H.
  destruct H as (_ & _ & H1 & H2 & H3 & H4 & _).
  repeat split; try assumption. apply Hsub.
Defined.

(** C6, as stated, fails: with the swap fee set to zero the protocol-fee
    ratio divides by zero and the swap aborts. *)
Lemma swap_zero_fee_not_guarded :
  swap_fee_bps Scenario.funded_no_fee = 0 /\
  swap (Scenario.as_ Scenario.trader) 1000 0 Scenario.funded_no_fee
    = Err DivisionByZero /\
  ~ zero_fee_guarded Scenario.funded_no_fee 1000.
Proof.
  split; [reflexivity |]. split; [reflexivity |].
  intros (f & Hf & _). vm_compute in Hf. discriminate Hf.
Qed.

(** C6, amended. In a state with [swap_fee_bps = 0] the protocol-fee ratio
    of [swap] is not guarded: the fee computation fails with a division by
    zero, so does every swap with a valid direction and a positive input,
    no swap succeeds, and the state is left as it was. *)
Theorem swap_zero_fee_fails (ctx : Context) (inputAmount swapType : Z) (st : State) :
  st.(swap_fee_bps) = 0 ->
  swap_fees inputAmount st.(swap_fee_bps) st.(protocol_fee_bps) = Err DivisionByZero /\
  (0 < inputAmount -> swapType = 0 \/ swapType = 1 ->
   swap ctx inputAmount swapType st = Err DivisionByZero) /\
  (forall r, swap ctx inputAmount swapType st <> Ok r) /\
  step st (ctx, Swap inputAmount swapType) = st.
Proof.
  intros E.
  assert (Hfees : swap_fees inputAmount (swap_fee_bps st) (protocol_fee_bps st)
                  = Err DivisionByZero).
  { rewrite E. unfold swap_fees, wideRatio, product. simpl.
    rewrite Z.mul_0_r. reflexivity. }
  assert (Hnone : forall r, swap ctx inputAmount swapType st <> Ok r).
  { intros [st' txns] H. apply swap_Ok in H as (q & _ & _ & Hq & _).
    apply swap_quote_Ok in Hq as (_ & Hs & _). contradiction. }
  split; [exact Hfees |]. split; [| split; [exact Hnone |]].
  - intros Hpos Hdir. unfold swap.
    assert (Hok : exists r,
               (if swapType =? 0
                then Ok (primary_token_reserve st, secondary_token_reserve st)
                else if swapType =? 1
                     then Ok (secondary_token_reserve st, primary_token_reserve st)
                     else Err InvalidSwapType) = Ok r)
      by (destruct Hdir as [-> | ->]; simpl; eauto).
    destruct Hok as (r & ->). cbn [bind].
    apply Z.ltb_lt in Hpos. rewrite Hpos. cbn [assert bind].
    unfold swap_quote. rewrite Hfees. reflexivity.
  - unfold step. cbn [fst snd call].
    destruct (swap ctx inputAmount swapType st) as [r | e] eqn:H.
    + exfalso. exact (Hnone r eq_refl).
    + reflexivity.
Qed.

Lemma swap_zero_fee_fails_witness :
  swap (Scenario.as_ Scenario.trader) 1000 0 Scenario.funded_no_fee
    = Err DivisionByZero /\
  step Scenario.funded_no_fee (Scenario.as_ Scenario.trader, Swap 1000 0)
    = Scenario.funded_no_fee.
Proof.
  destruct (swap_zero_fee_fails (Scenario.as_ Scenario.trader) 1000 0
              Scenario.funded_no_fee eq_refl) as (_ & Hfail & _ & Hstep).
  split; [| exact Hstep].
  apply Hfail; [reflexivity | left; reflexivity].
Defined.

(** ** Liquidity: inversion of successful calls *)

Lemma verifyAssetTransferTxn_Ok (txn : AssetTransferTxn) (snd rcv : Address)
    (asset amount : Z) (u : unit) :
  verifyAssetTransferTxn txn snd rcv asset amount = Ok u ->
  txn.(axfer_sender) = snd /\ txn.(axfer_assetReceiver) = rcv /\
  txn.(axfer_xferAsset) = asset /\ txn.(axfer_assetAmount) = amount.
Proof.
  unfold verifyAssetTransferTxn. intros H. apply assert_Ok in H.
  repeat (apply andb_prop in H; destruct H as [H ?]).
  repeat split;
    first [apply String.eqb_eq; assumption | apply Z.eqb_eq; assumption].
Qed.

Lemma addLiquidity_Ok (ctx : Context) (primaryAmount secondaryAmount : Z)
    (pt stx : AssetTransferTxn) (st st' : State) (txns : list InnerTxn) :
  addLiquidity ctx primaryAmount secondaryAmount pt stx st = Ok (st', txns) ->
  let lpTokensMinted := minted_by_code primaryAmount secondaryAmount st in
  st'.(primary_token_reserve) = st.(primary_token_reserve) + primaryAmount /\
  st'.(secondary_token_reserve) = st.(secondary_token_reserve) + secondaryAmount /\
  st'.(total_lp_supply) = st.(total_lp_supply) - lpTokensMinted /\
  st'.(lp_tokens_issued) = st.(lp_tokens_issued) + lpTokensMinted /\
  st'.(k_value) = st'.(primary_token_reserve) * st'.(secondary_token_reserve) /\
  lpTokensMinted <= st.(total_lp_supply) /\
  txns = [AssetTransfer st.(lp_token_id) ctx.(sender) lpTokensMinted].
Proof.
  unfold addLiquidity, minted_by_code. intros H.
  inv_bind H as u1 Hv1. inv_bind H as u2 Hv2.
  inv_bind H as m Hm.
  assert (Em : m = if lp_tokens_issued st =? 0
                   then sqrt (primaryAmount * secondaryAmount)
                   else min (primaryAmount * total_lp_supply st / primary_token_reserve st)
                            (secondaryAmount * total_lp_supply st
                               / secondary_token_reserve st)).
  { destruct (lp_tokens_issued st =? 0).
    - inv_bind Hm as p Hp. apply mul64_Ok in Hp as (-> & _). inversion Hm. reflexivity.
    - inv_bind Hm as a Ha. apply wideRatio_Ok in Ha as (-> & _ & _).
      inv_bind Hm as n Hn. apply mul64_Ok in Hn as (-> & _).
      inv_bind Hm as b Hb.
      unfold wideRatio, product in Hb. simpl fold_right in Hb.
      rewrite !Z.mul_1_r in Hb.
      destruct (secondary_token_reserve st =? 0); [discriminate |].
      destruct (_ <=? MAX_UINT64) in Hb; [| discriminate].
      inversion Hb. subst b. inversion Hm. reflexivity. }
  clear Hm. rewrite <- Em. clear Em.
  inv_bind H as np Hnp. apply add64_Ok in Hnp as (-> & _).
  inv_bind H as ns Hns. apply add64_Ok in Hns as (-> & _).
  inv_bind H as nsup Hsup. apply sub64_Ok in Hsup as (-> & Hle).
  inv_bind H as k Hk. apply mul64_Ok in Hk as (-> & _).
  inv_bind H as ni Hni. apply add64_Ok in Hni as (-> & _).
  inversion H. simpl. repeat split; auto.
Qed.

Lemma removeLiquidity_Ok (ctx : Context) (burnTxn : AssetTransferTxn)
    (lpTokensBurned : Z) (st st' : State) (txns : list InnerTxn) :
  removeLiquidity ctx burnTxn lpTokensBurned st = Ok (st', txns) ->
  let primaryWithdrawn :=
    lpTokensBurned * st.(primary_token_reserve) / st.(total_lp_supply) in
  let secondaryWithdrawn :=
    lpTokensBurned * st.(secondary_token_reserve) / st.(total_lp_supply) in
  0 < lpTokensBurned <= st.(total_lp_supply) /\
  lpTokensBurned <= st.(lp_tokens_issued) /\
  st'.(primary_token_reserve) = st.(primary_token_reserve) - primaryWithdrawn /\
  st'.(secondary_token_reserve) = st.(secondary_token_reserve) - secondaryWithdrawn /\
  st'.(total_lp_supply) = st.(total_lp_supply) /\
  st'.(lp_tokens_issued) = st.(lp_tokens_issued) - lpTokensBurned /\
  st'.(k_value) = st'.(primary_token_reserve) * st'.(secondary_token_reserve) /\
  txns = [sendAsset st.(primary_token_id) ctx.(sender) primaryWithdrawn;
          sendAsset st.(secondary_token_id) ctx.(sender) secondaryWithdrawn].
Proof.
  unfold removeLiquidity. intros H.
  inv_bind H as u1 Hpos. apply assert_Ok in Hpos. apply Z.ltb_lt in Hpos.
  inv_bind H as u2 Hsup. apply assert_Ok in Hsup. apply Z.leb_le in Hsup.
  inv_bind H as u3 Hburn.
  inv_bind H as pw Hpw. apply wideRatio_Ok in Hpw as (-> & _ & _).
  inv_bind H as sw Hsw. apply wideRatio_Ok in Hsw as (-> & _ & _).
  inv_bind H as np Hnp. apply sub64_Ok in Hnp as (-> & _).
  inv_bind H as ns Hns. apply sub64_Ok in Hns as (-> & _).
  inv_bind H as red Hred. apply sub64_Ok in Hred as (-> & _).
  inv_bind H as k Hk. apply mul64_Ok in Hk as (-> & _).
  inv_bind H as res Hres. apply add64_Ok in Hres as (-> & _).
  inv_bind H as ni Hni. apply sub64_Ok in Hni as (-> & Hiss).
  inversion H. simpl. repeat split; auto; lia.
Qed.

(** [addLiquidity] keeps the allotment accounted for: what leaves
    [total_lp_supply] enters [lp_tokens_issued]. *)
Lemma addLiquidity_allotment (ctx : Context) (primaryAmount secondaryAmount : Z)
    (pt stx : AssetTransferTxn) (st st' : State) (txns : list InnerTxn) :
  addLiquidity ctx primaryAmount secondaryAmount pt stx st = Ok (st', txns) ->
  st'.(lp_tokens_issued) + st'.(total_lp_supply)
    = st.(lp_tokens_issued) + st.(total_lp_supply).
Proof.
  intros H. apply addLiquidity_Ok in H as (_ & _ & Hs & Hi & _). lia.
Qed.

(** ** Withdrawals *)

(** C9. For a burn with [0 < lpTokensBurned <= total_lp_supply] the two
    withdrawals of [removeLiquidity], [lpTokensBurned * reserve /
    total_lp_supply], are bounded by the reserves, and the call behaves
    accordingly.  When it succeeds it pays out exactly these two amounts
    and stores the reserves less them, both still uint64.  When it fails
    with an underflow, the burn transaction was verified and the new
    reserve product and the restored supply were computed: the
    subtraction that failed is the one on [lp_tokens_issued], never one of
    the two on the reserves.  The rows exclude one another and cover the
    domain, so the call succeeds exactly on a verified burn of at most
    [lp_tokens_issued] units whose new reserve product fits. *)
Theorem removeLiquidity_withdrawals_bounded (ctx : Context)
    (burnTxn : AssetTransferTxn) (lpTokensBurned : Z) (st : State) :
  uint64 st.(primary_token_reserve) ->
  uint64 st.(secondary_token_reserve) ->
  0 < lpTokensBurned <= st.(total_lp_supply) ->
  let primaryReserve := st.(primary_token_reserve) in
  let secondaryReserve := st.(secondary_token_reserve) in
  let totalLPSupply := st.(total_lp_supply) in
  let primaryWithdrawn := lpTokensBurned * primaryReserve / totalLPSupply in
  let secondaryWithdrawn := lpTokensBurned * secondaryReserve / totalLPSupply in
  let verified :=
    burnTxn = mkAssetTransferTxn ctx.(sender) ctx.(app_address) st.(lp_token_id)
                lpTokensBurned in
  let fits :=
    (primaryReserve - primaryWithdrawn) * (secondaryReserve - secondaryWithdrawn)
      <= MAX_UINT64 /\
    totalLPSupply <= MAX_UINT64 in
  0 <= primaryWithdrawn <= primaryReserve /\
  0 <= secondaryWithdrawn <= secondaryReserve /\
  match removeLiquidity ctx burnTxn lpTokensBurned st with
  | Ok (st', txns) =>
      verified /\ fits /\ lpTokensBurned <= st.(lp_tokens_issued) /\
      txns = [sendAsset st.(primary_token_id) ctx.(sender) primaryWithdrawn;
              sendAsset st.(secondary_token_id) ctx.(sender) secondaryWithdrawn] /\
      st'.(primary_token_reserve) = primaryReserve - primaryWithdrawn /\
      st'.(secondary_token_reserve) = secondaryReserve - secondaryWithdrawn /\
      uint64 st'.(primary_token_reserve) /\
      uint64 st'.(secondary_token_reserve)
  | Err ArithmeticUnderflow =>
      verified /\ fits /\ st.(lp_tokens_issued) < lpTokensBurned
  | Err ArithmeticOverflow => verified /\ ~ fits
  | Err PreconditionFailed => ~ verified
  | Err _ => False
  end.
Proof.
  unfold uint64. intros Hp Hs Hb. cbv zeta.
  unfold removeLiquidity.
  set (pr := primary_token_reserve st) in *.
  set (sr := secondary_token_reserve st) in *.
  set (tot := total_lp_supply st) in *.
  pose proof (div_le_when_scaled pr lpTokensBurned tot) as Hpw.
  pose proof (div_le_when_scaled sr lpTokensBurned tot) as Hsw.
  rewrite (Z.mul_comm pr) in Hpw. rewrite (Z.mul_comm sr) in Hsw.
  split; [lia |]. split; [lia |].
  replace (0 <? lpTokensBurned) with true by (symmetry; apply Z.ltb_lt; lia).
  replace (lpTokensBurned <=? tot) with true by (symmetry; apply Z.leb_le; lia).
  cbn [assert bind].
  unfold verifyAssetTransferTxn.
  destruct (_ && _ && _ && _) eqn:Hv; cbn [assert bind].
  2: { intros ->. cbn in Hv.
       rewrite !String.eqb_refl, !Z.eqb_refl in Hv. discriminate Hv. }
  apply andb_prop in Hv as (Hv & Hb4). apply andb_prop in Hv as (Hv & Hb3).
  apply andb_prop in Hv as (Hb1 & Hb2).
  apply String.eqb_eq in Hb1, Hb2. apply Z.eqb_eq in Hb3, Hb4.
  assert (Hver : burnTxn = mkAssetTransferTxn (sender ctx) (app_address ctx)
                             (lp_token_id st) lpTokensBurned)
    by (destruct burnTxn; simpl in *; subst; reflexivity).
  rewrite (wideRatio_eval lpTokensBurned pr tot) by lia. cbn [bind].
  rewrite (wideRatio_eval lpTokensBurned sr tot) by lia. cbn [bind].
  rewrite !sub64_eval by lia. cbn [bind].
  set (pw := lpTokensBurned * pr / tot) in *.
  set (sw := lpTokensBurned * sr / tot) in *.
  unfold mul64. destruct ((pr - pw) * (sr - sw) <=? MAX_UINT64) eqn:Hk;
    cbn [bind]; [apply Z.leb_le in Hk | apply Z.leb_gt in Hk].
  2: { split; [exact Hver | lia]. }
  unfold add64. replace (tot - lpTokensBurned + lpTokensBurned) with tot by lia.
  destruct (tot <=? MAX_UINT64) eqn:Ht;
    cbn [bind]; [apply Z.leb_le in Ht | apply Z.leb_gt in Ht].
  2: { split; [exact Hver | lia]. }
  unfold sub64. destruct (lpTokensBurned <=? lp_tokens_issued st) eqn:Hi;
    cbn [bind]; [apply Z.leb_le in Hi | apply Z.leb_gt in Hi].
  2: { split; [exact Hver |]. split; [split; assumption | exact Hi]. }
  split; [exact Hver |]. split; [split; assumption |]. split; [exact Hi |].
  subst pw sw pr sr tot. cbn.
  split; [reflexivity |]. split; [reflexivity |]. split; [reflexivity |].
  pose proof (eq_refl : MAX_UINT64 = 18446744073709551615) as HM.
  rewrite HM in *. split; lia.
Qed.

Lemma removeLiquidity_withdrawals_bounded_witness :
  match removeLiquidity (Scenario.as_ Scenario.provider)
          (Scenario.deposit Scenario.provider Scenario.lpAssetId 40000) 40000
          Scenario.funded with
  | Ok (st', txns) =>
      txns = [AssetTransfer 1001 Scenario.provider 0;
              AssetTransfer 1002 Scenario.provider 0] /\
      st'.(primary_token_reserve) = 100000 /\
      st'.(secondary_token_reserve) = 100000
  | Err _ => False
  end.
Proof.
  assert (Hp : uint64 (primary_token_reserve Scenario.funded))
    by (vm_compute; split; discriminate).
  assert (Hs : uint64 (secondary_token_reserve Scenario.funded))
    by (vm_compute; split; discriminate).
  assert (Hb : 0 < 40000 <= total_lp_supply Scenario.funded)
    by (vm_compute; split; [reflexivity | discriminate]).
  pose proof (removeLiquidity_withdrawals_bounded
                (Scenario.as_ Scenario.provider)
                (Scenario.deposit Scenario.provider Scenario.lpAssetId 40000)
                40000 Scenario.funded Hp Hs Hb) as (_ & _ & H).
  cbv zeta in H.
  destruct (removeLiquidity _ _ _ _) as [[st' txns] | e].
  - destruct H as (_ & _ & _ & Ht & Hp' & Hs' & _).
    rewrite Ht, Hp', Hs'. vm_compute. repeat split; reflexivity.
  - destruct e; try exact H.
    + apply H. reflexivity.
    + destruct H as (_ & H). apply H. vm_compute. split; discriminate.
    + destruct H as (_ & _ & H). vm_compute in H. discriminate H.
Defined.

(** C2. Evaluation at the pool funded by one provider holding all 100000
    issued LP units ([issued = LP_TOKEN_SUPPLY - total_lp_supply = 100000]):
    burning all of them succeeds, but the shares are taken over
    [total_lp_supply] (the allotment still held by the pool), so the
    provider is paid (0, 0), the reserves stay (100000, 100000) and
    [total_lp_supply] is not restored to the full allotment.  The
    proportional share over the issued units would be (100000, 100000). *)
Theorem removeLiquidity_all_issued_units :
  let st := Scenario.funded in
  let ctx := Scenario.as_ Scenario.provider in
  let burnTxn := Scenario.deposit Scenario.provider Scenario.lpAssetId 100000 in
  st.(lp_tokens_issued) = 100000 /\
  LP_TOKEN_SUPPLY - st.(total_lp_supply) = 100000 /\
  100000 * st.(primary_token_reserve) / st.(lp_tokens_issued) = 100000 /\
  100000 * st.(secondary_token_reserve) / st.(lp_tokens_issued) = 100000 /\
  exists st',
    removeLiquidity ctx burnTxn 100000 st
      = Ok (st', [AssetTransfer 1001 Scenario.provider 0;
                  AssetTransfer 1002 Scenario.provider 0]) /\
    st'.(primary_token_reserve) = 100000 /\
    st'.(secondary_token_reserve) = 100000 /\
    st'.(total_lp_supply) = 99999999899999 /\
    st'.(total_lp_supply) <> LP_TOKEN_SUPPLY.
Proof.
  cbv zeta. repeat (split; [reflexivity |]).
  eexists. split; [reflexivity |].
  repeat (split; [reflexivity |]). discriminate.
Qed.

(** C3. A successful [removeLiquidity] leaves [total_lp_supply] as it
    was (it subtracts the burned units and adds them back) while
    [lp_tokens_issued] drops by the burned units, so a state in which
    [lp_tokens_issued = LP_TOKEN_SUPPLY - total_lp_supply] is taken to one
    in which that equation fails. *)
Theorem removeLiquidity_allotment_not_restored (ctx : Context)
    (burnTxn : AssetTransferTxn) (lpTokensBurned : Z) (st st' : State)
    (txns : list InnerTxn) :
  removeLiquidity ctx burnTxn lpTokensBurned st = Ok (st', txns) ->
  st.(lp_tokens_issued) = LP_TOKEN_SUPPLY - st.(total_lp_supply) ->
  st'.(total_lp_supply) = st.(total_lp_supply) /\
  st'.(lp_tokens_issued) = st.(lp_tokens_issued) - lpTokensBurned /\
  st'.(lp_tokens_issued) <> LP_TOKEN_SUPPLY - st'.(total_lp_supply).
Proof.
  intros H Hinv.
  apply removeLiquidity_Ok in H as (Hb & _ & _ & _ & Hs & Hi & _).
  repeat split; [exact Hs | exact Hi | lia].
Qed.

Lemma removeLiquidity_allotment_not_restored_witness :
  exists st',
    step Scenario.funded
         (Scenario.as_ Scenario.provider,
          Scenario.remove_call Scenario.provider 40000) = st' /\
    st'.(total_lp_supply) = 99999999899999 /\
    st'.(lp_tokens_issued) = 60000 /\
    st'.(lp_tokens_issued) <> LP_TOKEN_SUPPLY - st'.(total_lp_supply).
Proof.
  eexists. split; [reflexivity |].
  apply (removeLiquidity_allotment_not_restored
           (Scenario.as_ Scenario.provider)
           (Scenario.deposit Scenario.provider Scenario.lpAssetId 40000)
           40000 Scenario.funded _ _ eq_refl eq_refl).
Defined.

(** ** Deposits *)

(** C4. Evaluation at the funded pool, where 100000 LP units are issued:
    a second deposit of (1000, 1000) is credited over [total_lp_supply]
    (the allotment still held by the pool) and mints 999999998999 LP
    units; the ratio over the issued units would mint 1000. *)
Theorem addLiquidity_second_deposit :
  let st := Scenario.funded in
  let ctx := Scenario.as_ Scenario.provider in
  st.(lp_tokens_issued) = 100000 /\
  LP_TOKEN_SUPPLY - st.(total_lp_supply) = 100000 /\
  min (1000 * st.(lp_tokens_issued) / st.(primary_token_reserve))
      (1000 * st.(lp_tokens_issued) / st.(secondary_token_reserve)) = 1000 /\
  minted_by_code 1000 1000 st = 999999998999 /\
  exists st',
    call ctx (Scenario.add_call Scenario.provider 1000 1000) st
      = Ok (st', [AssetTransfer 1003 Scenario.provider 999999998999]) /\
    st'.(lp_tokens_issued) = 1000000098999.
Proof.
  cbv zeta. repeat (split; [reflexivity |]).
  eexists. split; reflexivity.
Qed.

(** ** Initialization *)

Lemma initApplication_Ok_admin (ctx : Context) (mbrTxn : PayTxn)
    (primaryAssetId secondaryAssetId : Z) (lpAssetName lpAssetURL : string)
    (swapFeeBps protocolFeeBps : Z) (treasuryAddress : Address) (st : State)
    (r : State * list InnerTxn) :
  initApplication ctx mbrTxn primaryAssetId secondaryAssetId
    lpAssetName lpAssetURL swapFeeBps protocolFeeBps treasuryAddress st = Ok r ->
  ctx.(sender) = st.(admin) /\
  mbrTxn.(pay_receiver) = ctx.(app_address) /\
  mbrTxn.(pay_amount) = TOKEN_MBR * 4 + 3000.
Proof.
  unfold initApplication, verifyPayTxn. intros H.
  inv_bind H as u1 Ha. apply assert_Ok in Ha. apply String.eqb_eq in Ha.
  inv_bind H as u2 Hp. apply assert_Ok in Hp.
  apply andb_prop in Hp as (Hr & Hamt).
  apply String.eqb_eq in Hr. apply Z.eqb_eq in Hamt. auto.
Qed.

(** C7, as stated, fails: in the call sequence create, init, addLiquidity,
    init both initializations succeed, the second one after a successful
    [addLiquidity]. *)
Lemma initApplication_not_once :
  successful_inits (outcomes empty_state Scenario.reinit_trace) = 2%nat /\
  init_after_trade (outcomes empty_state Scenario.reinit_trace) = true.
Proof. split; reflexivity. Qed.

(** C7, amended: what remains of the claim is that only the admin
    initializes.  In every call sequence, each [initApplication] that
    succeeds was sent by the admin of the state it ran in; a single call
    succeeds only if the sender is the admin and the funding payment is
    the one [verifyPayTxn] asks for; and a call from anyone else stops at
    the first assertion and leaves the state as it was. *)
Theorem initApplication_admin_only :
  (forall st txs, inits_by_admin st txs) /\
  (forall ctx mbrTxn primaryAssetId secondaryAssetId lpAssetName lpAssetURL
          swapFeeBps protocolFeeBps treasuryAddress st r,
     initApplication ctx mbrTxn primaryAssetId secondaryAssetId
       lpAssetName lpAssetURL swapFeeBps protocolFeeBps treasuryAddress st = Ok r ->
     ctx.(sender) = st.(admin) /\
     mbrTxn.(pay_receiver) = ctx.(app_address) /\
     mbrTxn.(pay_amount) = 403000) /\
  (forall ctx mbrTxn primaryAssetId secondaryAssetId lpAssetName lpAssetURL
          swapFeeBps protocolFeeBps treasuryAddress st,
     ctx.(sender) <> st.(admin) ->
     initApplication ctx mbrTxn primaryAssetId secondaryAssetId
       lpAssetName lpAssetURL swapFeeBps protocolFeeBps treasuryAddress st
       = Err Unauthorized /\
     step st (ctx, InitApplication mbrTxn primaryAssetId secondaryAssetId
                     lpAssetName lpAssetURL swapFeeBps protocolFeeBps
                     treasuryAddress) = st).
Proof.
  refine (conj _ (conj _ _)).
  - intros st txs. revert st.
    induction txs as [| [ctx c] rest IH]; intros st; simpl; [exact I |].
    split; [| apply IH].
    intros Hinit Hok. unfold succeeds in Hok. simpl in Hok.
    destruct c; simpl in Hinit; try discriminate Hinit.
    simpl in Hok.
    destruct (initApplication _ _ _ _ _ _ _ _ _ _) as [r | e] eqn:H;
      [| discriminate Hok].
    eapply initApplication_Ok_admin. exact H.
  - intros. eapply initApplication_Ok_admin. eassumption.
  - intros ctx mbrTxn p s name url sf pf t st Hne.
    assert (E : initApplication ctx mbrTxn p s name url sf pf t st
                = Err Unauthorized).
    { unfold initApplication.
      destruct (admin st =? sender ctx)%string eqn:Ea.
      - apply String.eqb_eq in Ea. congruence.
      - reflexivity. }
    split; [exact E |].
    unfold step. cbn [fst snd call]. rewrite E. reflexivity.
Qed.

Lemma initApplication_admin_only_witness :
  inits_by_admin empty_state Scenario.reinit_trace /\
  call (Scenario.as_ Scenario.trader) (Scenario.init_call 30 5) Scenario.funded
    = Err Unauthorized /\
  step Scenario.funded (Scenario.as_ Scenario.trader, Scenario.init_call 30 5)
    = Scenario.funded.
Proof.
  destruct initApplication_admin_only as (Htrace & _ & Hother).
  split; [apply Htrace |].
  apply (Hother (Scenario.as_ Scenario.trader) (mkPayTxn Scenario.pool 403000)
           Scenario.primaryAssetId Scenario.secondaryAssetId
           "LP-Asset" "https://lp-asset-url.com" 30 5 Scenario.treasury
           Scenario.funded).
  vm_compute. discriminate.
Defined.

(** ** Admin functions *)

Lemma admin_check (ctx : Context) (st : State) :
  (ctx.(sender) <> st.(admin) -> (st.(admin) =? ctx.(sender))%string = false) /\
  (ctx.(sender) = st.(admin) -> (st.(admin) =? ctx.(sender))%string = true).
Proof.
  split; intros H.
  - apply String.eqb_neq. congruence.
  - apply String.eqb_eq. congruence.
Qed.

(** Settles one admin update: unfolds the method, decides the admin check,
    and reads every key of the resulting state. *)
Ltac unfold_update :=
  unfold step, call, updateSwapFee, updateProtocolFee, updateAdmin,
    updateTreasury, updateMinimumBalance, updateContractEnding;
  cbn [fst snd].

Ltac admin_update :=
  intros ctx st; destruct (admin_check ctx st) as [Hno Hyes];
  split; intros H;
  [ apply Hno in H; unfold_update; rewrite H; split; reflexivity
  | apply Hyes in H; unfold_update; rewrite H; cbn [assert bind];
    eexists; split; [reflexivity |]; split; [reflexivity |];
    split; [reflexivity |];
    intros g Hg; destruct g; try reflexivity; contradiction ].

(** C8. Each admin update ([updateSwapFee], [updateProtocolFee],
    [updateAdmin], [updateTreasury], [updateMinimumBalance],
    [updateContractEnding]) fails with [Unauthorized] and changes nothing
    when the sender is not the admin, and otherwise overwrites exactly its
    own key with the given value. *)
Theorem admin_updates_frame :
  (forall newFee,
     admin_overwrites (UpdateSwapFee newFee) F_swap_fee_bps (VUint newFee)) /\
  (forall newFee,
     admin_overwrites (UpdateProtocolFee newFee) F_protocol_fee_bps (VUint newFee)) /\
  (forall newAdmin,
     admin_overwrites (UpdateAdmin newAdmin) F_admin (VBytes newAdmin)) /\
  (forall newTreasury,
     admin_overwrites (UpdateTreasury newTreasury) F_treasury_address
                      (VBytes newTreasury)) /\
  (forall newMBR,
     admin_overwrites (UpdateMinimumBalance newMBR) F_minimum_balance (VUint newMBR)) /\
  (forall newEnding,
     admin_overwrites (UpdateContractEnding newEnding) F_contract_ending
                      (VUint newEnding)).
Proof.
  refine (conj _ (conj _ (conj _ (conj _ (conj _ _)))));
    intros v; unfold admin_overwrites; admin_update.
Qed.

Lemma admin_updates_frame_witness :
  call (Scenario.as_ Scenario.trader) (UpdateSwapFee 10) Scenario.funded
    = Err Unauthorized /\
  exists st',
    call (Scenario.as_ Scenario.deployer) (UpdateSwapFee 10) Scenario.funded
      = Ok (st', []) /\
    read F_swap_fee_bps st' = VUint 10 /\
    read F_protocol_fee_bps st' = VUint 5.
Proof.
  destruct admin_updates_frame as (Hfee & _).
  destruct (Hfee 10 (Scenario.as_ Scenario.trader) Scenario.funded) as (Hno & _).
  destruct (Hfee 10 (Scenario.as_ Scenario.deployer) Scenario.funded) as (_ & Hyes).
  split.
  - apply Hno. vm_compute. discriminate.
  - destruct (Hyes eq_refl) as (st' & Hcall & _ & Hval & Hframe).
    exists st'. split; [exact Hcall |]. split; [exact Hval |].
    rewrite (Hframe F_protocol_fee_bps) by discriminate. reflexivity.
Defined.

(** * Further properties of the contract *)

(** ** Complete inversion of the successful calls *)

Lemma verifyPayTxn_Ok (txn : PayTxn) (receiver : Address) (amount : Z) (u : unit) :
  verifyPayTxn txn receiver amount = Ok u ->
  txn.(pay_receiver) = receiver /\ txn.(pay_amount) = amount.
Proof.
  unfold verifyPayTxn. intros H. apply assert_Ok in H.
  apply andb_prop in H as (Hr & Ha).
  apply String.eqb_eq in Hr. apply Z.eqb_eq in Ha. auto.
Qed.

Lemma verifyAssetTransferTxn_eval (txn : AssetTransferTxn) (snd rcv : Address)
    (asset amount : Z) :
  txn.(axfer_sender) = snd -> txn.(axfer_assetReceiver) = rcv ->
  txn.(axfer_xferAsset) = asset -> txn.(axfer_assetAmount) = amount ->
  verifyAssetTransferTxn txn snd rcv asset amount = Ok tt.
Proof.
  intros <- <- <- <-. unfold verifyAssetTransferTxn.
  rewrite !String.eqb_refl, !Z.eqb_refl. reflexivity.
Qed.

Lemma verifyAssetTransferTxn_cases (txn : AssetTransferTxn) (snd rcv : Address)
    (asset amount : Z) :
  verifyAssetTransferTxn txn snd rcv asset amount = Ok tt \/
  verifyAssetTransferTxn txn snd rcv asset amount = Err PreconditionFailed.
Proof.
  unfold verifyAssetTransferTxn, assert. destruct (_ && _); auto.
Qed.

Lemma add64_eval (a b : Z) : a + b <= MAX_UINT64 -> add64 a b = Ok (a + b).
Proof. intros H. unfold add64. apply Z.leb_le in H. rewrite H. reflexivity. Qed.

Lemma mul64_eval (a b : Z) : a * b <= MAX_UINT64 -> mul64 a b = Ok (a * b).
Proof. intros H. unfold mul64. apply Z.leb_le in H. rewrite H. reflexivity. Qed.

(** Everything a successful pricing establishes, bounds included. *)
Lemma swap_quote_inv (inputAmount swapFeeBps protocolFeeBps reserveIn reserveOut : Z)
    (q : SwapQuote) :
  swap_quote inputAmount swapFeeBps protocolFeeBps reserveIn reserveOut = Ok q ->
  let tf := inputAmount * swapFeeBps / 10000 in
  let pf := tf * protocolFeeBps / swapFeeBps in
  let lf := tf - pf in
  let iaf := inputAmount - tf in
  let out := reserveOut * iaf / (reserveIn + iaf) in
  q = mkSwapQuote (mkFeeSplit tf pf lf iaf) out (reserveIn + iaf + lf) (reserveOut - out) /\
  swapFeeBps <> 0 /\ pf <= tf /\ tf <= inputAmount /\
  reserveIn + iaf <> 0 /\ 0 < out /\ out <= reserveOut /\
  reserveIn + iaf + lf <= MAX_UINT64.
Proof.
  unfold swap_quote. intros H.
  inv_bind H as f Hf. apply swap_fees_Ok in Hf as (-> & Hs & Hpf & Htf). simpl in H.
  inv_bind H as num Hnum. apply mul64_Ok in Hnum as (-> & _).
  inv_bind H as den Hden. apply add64_Ok in Hden as (-> & _).
  inv_bind H as o Ho. apply div64_Ok in Ho as (-> & Hden).
  inv_bind H as u Hpos. apply assert_Ok in Hpos. apply Z.ltb_lt in Hpos.
  inv_bind H as s Hsum. apply add64_Ok in Hsum as (-> & _).
  inv_bind H as newIn HnewIn. apply add64_Ok in HnewIn as (-> & Hmax).
  inv_bind H as newOut HnewOut. apply sub64_Ok in HnewOut as (-> & Hout).
  inversion H. repeat split; auto.
Qed.

(** The state and the inner transactions of a successful [swap]. *)
Lemma swap_inv (ctx : Context) (inputAmount swapType : Z) (st st' : State)
    (txns : list InnerTxn) :
  swap ctx inputAmount swapType st = Ok (st', txns) ->
  exists q,
    (swapType = 0 \/ swapType = 1) /\ 0 < inputAmount /\
    swap_quote inputAmount st.(swap_fee_bps) st.(protocol_fee_bps)
      (reserve_in swapType st) (reserve_out swapType st) = Ok q /\
    q.(newReserveIn) * q.(newReserveOut) <= MAX_UINT64 /\
    st' = set_k_value (q.(newReserveIn) * q.(newReserveOut))
            (if swapType =? 0
             then set_secondary_token_reserve q.(newReserveOut)
                    (set_primary_token_reserve q.(newReserveIn) st)
             else set_primary_token_reserve q.(newReserveOut)
                    (set_secondary_token_reserve q.(newReserveIn) st)) /\
    txns = ((if 0 <? q.(fees).(protocolFee)
             then [sendAsset (asset_in swapType st) st.(treasury_address)
                             q.(fees).(protocolFee)]
             else []) ++
            [sendAsset (asset_out swapType st) ctx.(sender) q.(outputAmount)])%list.
Proof.
  unfold swap, reserve_in, reserve_out, asset_in, asset_out. intros H.
  inv_bind H as v Hv.
  assert (Hdir : (swapType = 0 \/ swapType = 1) /\
                 v = (if swapType =? 0
                      then (primary_token_reserve st, secondary_token_reserve st)
                      else (secondary_token_reserve st, primary_token_reserve st))).
  { destruct (swapType =? 0) eqn:E0.
    - apply Z.eqb_eq in E0. inversion Hv. auto.
    - destruct (swapType =? 1) eqn:E1; [| discriminate].
      apply Z.eqb_eq in E1. inversion Hv. auto. }
  destruct Hdir as (Hdir & ->). clear Hv.
  inv_bind H as u Hpos. apply assert_Ok in Hpos. apply Z.ltb_lt in Hpos.
  inv_bind H as q Hq.
  inv_bind H as k Hk. apply mul64_Ok in Hk as (-> & Hkmax).
  inversion H; subst st' txns. clear H.
  exists q. split; [exact Hdir |]. split; [exact Hpos |].
  destruct Hdir as [-> | ->]; cbn [Z.eqb Pos.eqb fst snd] in *;
    (split; [exact Hq |]); (split; [exact Hkmax |]); split; reflexivity.
Qed.

(** The state and the inner transaction of a successful [addLiquidity]. *)
Lemma addLiquidity_inv (ctx : Context) (primaryAmount secondaryAmount : Z)
    (pt stx : AssetTransferTxn) (st st' : State) (txns : list InnerTxn) :
  addLiquidity ctx primaryAmount secondaryAmount pt stx st = Ok (st', txns) ->
  let m := minted_by_code primaryAmount secondaryAmount st in
  let p := st.(primary_token_reserve) + primaryAmount in
  let s := st.(secondary_token_reserve) + secondaryAmount in
  p <= MAX_UINT64 /\ s <= MAX_UINT64 /\ p * s <= MAX_UINT64 /\
  m <= st.(total_lp_supply) /\ st.(lp_tokens_issued) + m <= MAX_UINT64 /\
  (st.(lp_tokens_issued) <> 0 ->
   st.(primary_token_reserve) <> 0 /\ st.(secondary_token_reserve) <> 0) /\
  st' = set_lp_tokens_issued (st.(lp_tokens_issued) + m)
          (set_k_value (p * s)
             (set_total_lp_supply (st.(total_lp_supply) - m)
                (set_secondary_token_reserve s
                   (set_primary_token_reserve p st)))) /\
  txns = [AssetTransfer st.(lp_token_id) ctx.(sender) m].
Proof.
  unfold addLiquidity, minted_by_code. intros H.
  inv_bind H as u1 Hv1. inv_bind H as u2 Hv2.
  inv_bind H as m Hm.
  assert (Em : m = (if lp_tokens_issued st =? 0
                    then sqrt (primaryAmount * secondaryAmount)
                    else min (primaryAmount * total_lp_supply st / primary_token_reserve st)
                             (secondaryAmount * total_lp_supply st
                                / secondary_token_reserve st)) /\
               (lp_tokens_issued st <> 0 ->
                primary_token_reserve st <> 0 /\ secondary_token_reserve st <> 0)).
  { destruct (lp_tokens_issued st =? 0) eqn:Ei.
    - apply Z.eqb_eq in Ei.
      inv_bind Hm as p Hp. apply mul64_Ok in Hp as (-> & _). inversion Hm.
      split; [reflexivity | intros Hne; contradiction].
    - inv_bind Hm as a Ha. apply wideRatio_Ok in Ha as (-> & Hpr & _).
      inv_bind Hm as n Hn. apply mul64_Ok in Hn as (-> & _).
      inv_bind Hm as b Hb.
      unfold wideRatio, product in Hb. simpl fold_right in Hb.
      rewrite !Z.mul_1_r in Hb.
      destruct (secondary_token_reserve st =? 0) eqn:Esr; [discriminate |].
      apply Z.eqb_neq in Esr.
      destruct (_ <=? MAX_UINT64) in Hb; [| discriminate].
      inversion Hb. subst b. inversion Hm. auto. }
  destruct Em as (Em & Hres). clear Hm. rewrite <- Em. clear Em.
  inv_bind H as np Hnp. apply add64_Ok in Hnp as (-> & Hp).
  inv_bind H as ns Hns. apply add64_Ok in Hns as (-> & Hs).
  inv_bind H as nsup Hsup. apply sub64_Ok in Hsup as (-> & Hle).
  inv_bind H as k Hk. apply mul64_Ok in Hk as (-> & Hkmax).
  inv_bind H as ni Hni. apply add64_Ok in Hni as (-> & Hi).
  inversion H. repeat split; auto; apply Hres; assumption.
Qed.

(** The state and the inner transactions of a successful [removeLiquidity]. *)
Lemma removeLiquidity_inv (ctx : Context) (burnTxn : AssetTransferTxn)
    (lpTokensBurned : Z) (st st' : State) (txns : list InnerTxn) :
  removeLiquidity ctx burnTxn lpTokensBurned st = Ok (st', txns) ->
  let pw := lpTokensBurned * st.(primary_token_reserve) / st.(total_lp_supply) in
  let sw := lpTokensBurned * st.(secondary_token_reserve) / st.(total_lp_supply) in
  let p := st.(primary_token_reserve) - pw in
  let s := st.(secondary_token_reserve) - sw in
  0 < lpTokensBurned <= st.(total_lp_supply) /\
  lpTokensBurned <= st.(lp_tokens_issued) /\
  pw <= st.(primary_token_reserve) /\ sw <= st.(secondary_token_reserve) /\
  p * s <= MAX_UINT64 /\
  burnTxn = mkAssetTransferTxn ctx.(sender) ctx.(app_address) st.(lp_token_id)
              lpTokensBurned /\
  st' = set_lp_tokens_issued (st.(lp_tokens_issued) - lpTokensBurned)
          (set_total_lp_supply (st.(total_lp_supply) - lpTokensBurned + lpTokensBurned)
             (set_k_value (p * s)
                (set_total_lp_supply (st.(total_lp_supply) - lpTokensBurned)
                   (set_secondary_token_reserve s
                      (set_primary_token_reserve p st))))) /\
  txns = [sendAsset st.(primary_token_id) ctx.(sender) pw;
          sendAsset st.(secondary_token_id) ctx.(sender) sw].
Proof.
  unfold removeLiquidity. intros H.
  inv_bind H as u1 Hpos. apply assert_Ok in Hpos. apply Z.ltb_lt in Hpos.
  inv_bind H as u2 Hsup. apply assert_Ok in Hsup. apply Z.leb_le in Hsup.
  inv_bind H as u3 Hburn.
  apply verifyAssetTransferTxn_Ok in Hburn as (Hb1 & Hb2 & Hb3 & Hb4).
  inv_bind H as pw Hpw. apply wideRatio_Ok in Hpw as (-> & _ & _).
  inv_bind H as sw Hsw. apply wideRatio_Ok in Hsw as (-> & _ & _).
  inv_bind H as np Hnp. apply sub64_Ok in Hnp as (-> & Hp).
  inv_bind H as ns Hns. apply sub64_Ok in Hns as (-> & Hs).
  inv_bind H as red Hred. apply sub64_Ok in Hred as (-> & _).
  inv_bind H as k Hk. apply mul64_Ok in Hk as (-> & Hkmax).
  inv_bind H as res Hres. apply add64_Ok in Hres as (-> & _).
  inv_bind H as ni Hni. apply sub64_Ok in Hni as (-> & Hiss).
  inversion H.
  repeat split; auto.
  destruct burnTxn; simpl in *; subst; reflexivity.
Qed.

Lemma initApplication_inv (ctx : Context) (mbrTxn : PayTxn)
    (primaryAssetId secondaryAssetId : Z) (lpAssetName lpAssetURL : string)
    (swapFeeBps protocolFeeBps : Z) (treasuryAddress : Address)
    (st st' : State) (txns : list InnerTxn) :
  initApplication ctx mbrTxn primaryAssetId secondaryAssetId lpAssetName lpAssetURL
    swapFeeBps protocolFeeBps treasuryAddress st = Ok (st', txns) ->
  ctx.(sender) = st.(admin) /\
  mbrTxn = mkPayTxn ctx.(app_address) 403000 /\
  st' = mkState 0 0 primaryAssetId secondaryAssetId LP_TOKEN_SUPPLY
          st.(lp_tokens_issued) 0 ctx.(created_asset_id) lpAssetName "MLP" 6
          lpAssetURL swapFeeBps protocolFeeBps st.(admin) treasuryAddress
          400000 st.(contract_ending) 1000 /\
  txns = [AssetTransfer primaryAssetId ctx.(app_address) 0;
          AssetTransfer secondaryAssetId ctx.(app_address) 0;
          AssetCreation LP_TOKEN_SUPPLY 6 lpAssetName "MLP" lpAssetURL].
Proof.
  unfold initApplication. intros H.
  inv_bind H as u1 Ha. apply assert_Ok in Ha. apply String.eqb_eq in Ha.
  inv_bind H as u2 Hp. apply verifyPayTxn_Ok in Hp as (Hr & Hamt).
  inversion H. repeat split; auto.
  destruct mbrTxn; simpl in *; subst; reflexivity.
Qed.

(** An admin update either fails on the admin check or rewrites one key. *)
Lemma admin_call_inv (ctx : Context) (c : Call) (st st' : State)
    (txns : list InnerTxn) :
  call ctx c st = Ok (st', txns) ->
  match c with
  | UpdateSwapFee v => ctx.(sender) = st.(admin) /\ st' = set_swap_fee_bps v st
  | UpdateProtocolFee v => ctx.(sender) = st.(admin) /\ st' = set_protocol_fee_bps v st
  | UpdateAdmin a => ctx.(sender) = st.(admin) /\ st' = set_admin a st
  | UpdateTreasury a => ctx.(sender) = st.(admin) /\ st' = set_treasury_address a st
  | UpdateMinimumBalance v => ctx.(sender) = st.(admin) /\ st' = set_minimum_balance v st
  | UpdateContractEnding v => ctx.(sender) = st.(admin) /\ st' = set_contract_ending v st
  | _ => True
  end.
Proof.
  destruct c; try exact (fun _ => I); cbn [call];
    unfold updateSwapFee, updateProtocolFee, updateAdmin, updateTreasury,
      updateMinimumBalance, updateContractEnding;
    intros H; inv_bind H as u Ha; apply assert_Ok in Ha;
    apply String.eqb_eq in Ha; inversion H; auto.
Qed.

Lemma minted_by_code_nonneg (primaryAmount secondaryAmount : Z) (st : State) :
  0 <= primaryAmount -> 0 <= secondaryAmount ->
  0 <= st.(total_lp_supply) ->
  0 <= st.(primary_token_reserve) -> 0 <= st.(secondary_token_reserve) ->
  0 <= minted_by_code primaryAmount secondaryAmount st.
Proof.
  intros Hp Hs Ht Hpr Hsr. unfold minted_by_code, sqrt, min.
  destruct (_ =? 0); [apply Z.sqrt_nonneg |].
  destruct (_ <? _); apply Z_div_nonneg_nonneg; nia.
Qed.

(** ** State invariants *)

(** X1. [k_value] is the product of the reserves: every successful
    deposit, withdrawal, swap or initialization leaves it so whatever it
    was before, every other successful call keeps it so, and therefore it
    holds after any sequence of calls on a fresh application. *)
Theorem k_value_is_reserve_product :
  (forall ctx c st st' txns,
     call ctx c st = Ok (st', txns) ->
     is_trade c = true \/ is_init c = true \/ k_consistent st ->
     k_consistent st') /\
  (forall txs, k_consistent (run empty_state txs)).
Proof.
  assert (Hstep : forall ctx c st st' txns,
             call ctx c st = Ok (st', txns) ->
             is_trade c = true \/ is_init c = true \/ k_consistent st ->
             k_consistent st').
  { intros ctx c st st' txns H Hc. unfold k_consistent in *.
    pose proof (admin_call_inv ctx c st st' txns H) as Hadm.
    destruct c; cbn [call is_trade is_init] in *.
    - destruct Hc as [Hc | [Hc | Hc]]; try discriminate.
      unfold createApplication in H. inversion H. exact Hc.
    - apply initApplication_inv in H as (_ & _ & -> & _). reflexivity.
    - apply addLiquidity_inv in H as (_ & _ & _ & _ & _ & _ & -> & _). reflexivity.
    - apply removeLiquidity_inv in H as (_ & _ & _ & _ & _ & _ & -> & _). reflexivity.
    - apply swap_inv in H as (q & Hdir & _ & _ & _ & -> & _).
      destruct Hdir as [-> | ->]; cbn; lia.
    - destruct Hc as [Hc | [Hc | Hc]]; try discriminate.
      destruct Hadm as (_ & ->). exact Hc.
    - destruct Hc as [Hc | [Hc | Hc]]; try discriminate.
      destruct Hadm as (_ & ->). exact Hc.
    - destruct Hc as [Hc | [Hc | Hc]]; try discriminate.
      destruct Hadm as (_ & ->). exact Hc.
    - destruct Hc as [Hc | [Hc | Hc]]; try discriminate.
      destruct Hadm as (_ & ->). exact Hc.
    - destruct Hc as [Hc | [Hc | Hc]]; try discriminate.
      destruct Hadm as (_ & ->). exact Hc.
    - destruct Hc as [Hc | [Hc | Hc]]; try discriminate.
      destruct Hadm as (_ & ->). exact Hc. }
  split; [exact Hstep |].
  assert (Hrun : forall txs st, k_consistent st -> k_consistent (run st txs)).
  { induction txs as [| [ctx c] rest IH]; intros st Hk; [exact Hk |].
    unfold run in *. cbn [fold_left]. apply IH.
    unfold step. cbn [fst snd].
    destruct (call ctx c st) as [[st' txns] | e] eqn:H; [| exact Hk].
    apply (Hstep ctx c st st' txns H). auto. }
  intros txs. apply Hrun. reflexivity.
Qed.

Lemma k_value_is_reserve_product_witness :
  k_consistent
    (step Scenario.funded (Scenario.as_ Scenario.trader, Swap 1000 1)) /\
  k_consistent (run empty_state Scenario.reinit_trace).
Proof.
  destruct k_value_is_reserve_product as [Hcall Hrun].
  split; [| apply Hrun].
  apply (Hcall (Scenario.as_ Scenario.trader) (Swap 1000 1) Scenario.funded
           _ [AssetTransfer 1001 Scenario.trader 987] eq_refl).
  left. reflexivity.
Defined.

Lemma max_uint64_value : MAX_UINT64 = 18446744073709551615.
Proof. reflexivity. Qed.

(** A swap keeps every numeric key within uint64, whatever its arguments. *)
Lemma swap_keeps_uint64 (ctx : Context) (inputAmount swapType : Z)
    (st st' : State) (txns : list InnerTxn) :
  wf_state st ->
  swap ctx inputAmount swapType st = Ok (st', txns) -> wf_state st'.
Proof.
  intros Hwf H.
  unfold wf_state, uint64 in *. rewrite max_uint64_value in *.
  destruct Hwf as (Hpr & Hsr & Hpi & Hsi & Htl & Hli & Hk & Hlp & Hld &
                   Hsf & Hpf & Hmb & Hce & Hcv).
  apply swap_inv in H as (q & Hdir & Hpos & Hq & Hks & -> & _).
  apply swap_quote_inv in Hq as (-> & _ & Hpft & Htf & _ & Hout & Hle & Hmax).
  rewrite max_uint64_value in *.
  cbn [newReserveIn newReserveOut] in *.
  destruct Hdir as [-> | ->]; unfold reserve_in, reserve_out in *;
    cbn in *; repeat split; try lia; nia.
Qed.

(** One call keeps every numeric key within uint64. *)
Lemma call_keeps_uint64 (ctx : Context) (c : Call) (st st' : State)
    (txns : list InnerTxn) :
  wf_state st -> args_uint64 ctx c ->
  call ctx c st = Ok (st', txns) -> wf_state st'.
Proof.
  intros Hwf Hargs H.
  pose proof (admin_call_inv ctx c st st' txns H) as Hadm.
  unfold wf_state, uint64 in *. rewrite max_uint64_value in *.
  destruct Hwf as (Hpr & Hsr & Hpi & Hsi & Htl & Hli & Hk & Hlp & Hld &
                   Hsf & Hpf & Hmb & Hce & Hcv).
  destruct c; cbn [call args_uint64] in *;
    unfold uint64 in Hargs; rewrite ?max_uint64_value in Hargs.
  - unfold createApplication in H. inversion H. cbn. repeat split; lia.
  - apply initApplication_inv in H as (_ & _ & -> & _).
    unfold LP_TOKEN_SUPPLY. cbn. repeat split; lia.
  - pose proof (minted_by_code_nonneg primaryAmount secondaryAmount st) as Hm.
    apply addLiquidity_inv in H as (Hp & Hs & Hks & Hmt & Hiss & _ & -> & _).
    rewrite max_uint64_value in *. cbn.
    repeat split; try lia; nia.
  - apply removeLiquidity_inv in H as (Hn & Hiss & Hpw & Hsw & Hks & _ & -> & _).
    rewrite max_uint64_value in *.
    assert (0 <= lpTokensBurned * primary_token_reserve st / total_lp_supply st)
      by (apply Z_div_nonneg_nonneg; nia).
    assert (0 <= lpTokensBurned * secondary_token_reserve st / total_lp_supply st)
      by (apply Z_div_nonneg_nonneg; nia).
    cbn. repeat split; try lia; nia.
  - pose proof (swap_keeps_uint64 ctx inputAmount swapType st st' txns) as Hswap.
    unfold wf_state, uint64 in Hswap. rewrite max_uint64_value in Hswap.
    apply Hswap; [repeat split; lia | exact H].
  - destruct Hadm as (_ & ->). cbn. repeat split; lia.
  - destruct Hadm as (_ & ->). cbn. repeat split; lia.
  - destruct Hadm as (_ & ->). cbn. repeat split; lia.
  - destruct Hadm as (_ & ->). cbn. repeat split; lia.
  - destruct Hadm as (_ & ->). cbn. repeat split; lia.
  - destruct Hadm as (_ & ->). cbn. repeat split; lia.
Qed.

(** X2. Every numeric key stays a uint64: a successful call with uint64
    arguments takes a state whose numeric keys are uint64 to another such
    state, so the keys are uint64 after any sequence of such calls on a
    fresh application. *)
Theorem numeric_keys_stay_uint64 (txs : list (Context * Call)) (st : State) :
  wf_state st ->
  Forall (fun tx => args_uint64 (fst tx) (snd tx)) txs ->
  wf_state (run st txs) /\ wf_state (run empty_state txs).
Proof.
  assert (Hrun : forall l s, wf_state s ->
             Forall (fun tx => args_uint64 (fst tx) (snd tx)) l ->
             wf_state (run s l)).
  { induction l as [| [ctx c] rest IH]; intros s Hs Hl; [exact Hs |].
    inversion Hl as [| x l' Hx Hrest]; subst.
    unfold run in *. cbn [fold_left]. apply IH; [| exact Hrest].
    unfold step. cbn [fst snd] in *.
    destruct (call ctx c s) as [[s' txns] | e] eqn:H; [| exact Hs].
    exact (call_keeps_uint64 ctx c s s' txns Hs Hx H). }
  intros Hwf Hargs. split; [apply Hrun; assumption |].
  apply Hrun; [| exact Hargs].
  unfold wf_state, uint64. rewrite max_uint64_value. cbn. repeat split; lia.
Qed.

Lemma numeric_keys_stay_uint64_witness :
  wf_state (run Scenario.funded [(Scenario.as_ Scenario.trader, Swap 1000 0)]).
Proof.
  assert (Hwf : wf_state Scenario.funded)
    by (unfold wf_state, uint64; vm_compute; repeat split; discriminate).
  assert (Hargs : Forall (fun tx => args_uint64 (fst tx) (snd tx))
                    [(Scenario.as_ Scenario.trader, Swap 1000 0)]).
  { constructor; [| constructor]. cbn. unfold uint64, MAX_UINT64. lia. }
  exact (proj1 (numeric_keys_stay_uint64 _ _ Hwf Hargs)).
Defined.

(** ** Swap: bookkeeping, bounds and outcomes *)

(** X3. The bookkeeping of a successful [swap] matches what it moves: the
    call submits the protocol fee to the treasury in the input asset
    (only when it is positive) followed by the output to the sender, the
    input reserve grows by the input less that protocol fee, and the
    output reserve shrinks by exactly the output paid. *)
Theorem swap_conserves_tokens (ctx : Context) (inputAmount swapType : Z)
    (st st' : State) (txns : list InnerTxn) :
  0 <= st.(swap_fee_bps) -> 0 <= st.(protocol_fee_bps) ->
  swap ctx inputAmount swapType st = Ok (st', txns) ->
  exists fee out,
    txns = ((if 0 <? fee
             then [sendAsset (asset_in swapType st) st.(treasury_address) fee]
             else []) ++
            [sendAsset (asset_out swapType st) ctx.(sender) out])%list /\
    0 <= fee <= inputAmount /\ 0 < out /\
    reserve_in swapType st' + fee = reserve_in swapType st + inputAmount /\
    reserve_out swapType st' + out = reserve_out swapType st.
Proof.
  intros Hsf Hpf H.
  apply swap_inv in H as (q & Hdir & Hpos & Hq & _ & -> & ->).
  apply swap_quote_inv in Hq as (-> & Hs & Hpft & Htf & _ & Hout & _ & _).
  cbn [fees protocolFee outputAmount newReserveIn newReserveOut].
  set (tf := inputAmount * swap_fee_bps st / 10000) in *.
  set (pf := tf * protocol_fee_bps st / swap_fee_bps st) in *.
  assert (Htf0 : 0 <= tf) by (apply Z_div_nonneg_nonneg; nia).
  assert (Hpf0 : 0 <= pf) by (apply Z_div_nonneg_nonneg; nia).
  eexists; eexists. split; [reflexivity |].
  split; [lia |]. split; [exact Hout |].
  destruct Hdir as [-> | ->]; unfold reserve_in, reserve_out; cbn; lia.
Qed.

Lemma swap_conserves_tokens_witness :
  let ctx := Scenario.as_ Scenario.trader in
  let st := Scenario.funded in
  let st' := step st (ctx, Swap 40000 1) in
  let txns := [AssetTransfer 1002 Scenario.treasury 20;
               AssetTransfer 1001 Scenario.trader 28510] in
  swap ctx 40000 1 st = Ok (st', txns) /\
  exists fee out,
    txns = ((if 0 <? fee
             then [sendAsset (asset_in 1 st) st.(treasury_address) fee]
             else []) ++
            [sendAsset (asset_out 1 st) ctx.(sender) out])%list /\
    0 <= fee <= 40000 /\ 0 < out /\
    reserve_in 1 st' + fee = reserve_in 1 st + 40000 /\
    reserve_out 1 st' + out = reserve_out 1 st.
Proof.
  intros ctx st st' txns.
  assert (Hcall : swap ctx 40000 1 st = Ok (st', txns)) by (vm_compute; reflexivity).
  split; [exact Hcall |].
  apply (swap_conserves_tokens ctx 40000 1 st st' txns);
    [vm_compute; discriminate | vm_compute; discriminate | exact Hcall].
Defined.

(** X4. A successful [swap] moves the two reserves in opposite
    directions: the input reserve strictly grows, the output reserve
    strictly shrinks without going negative, and with a positive input
    reserve it is never emptied.  In particular no swap succeeds against
    an empty output reserve. *)
Theorem swap_moves_reserves (ctx : Context) (inputAmount swapType : Z)
    (st st' : State) (txns : list InnerTxn) :
  swap ctx inputAmount swapType st = Ok (st', txns) ->
  reserve_in swapType st < reserve_in swapType st' /\
  0 <= reserve_out swapType st' < reserve_out swapType st /\
  (0 < reserve_in swapType st -> 0 < reserve_out swapType st').
Proof.
  intros H.
  apply swap_Ok in H as (q & _ & _ & Hq & -> & -> & _).
  apply swap_quote_inv in Hq as (-> & _ & Hpft & Htf & Hden & Hout & Hle & _).
  cbn [newReserveIn newReserveOut].
  set (rin := reserve_in swapType st) in *.
  set (rout := reserve_out swapType st) in *.
  set (tf := inputAmount * swap_fee_bps st / 10000) in *.
  set (pf := tf * protocol_fee_bps st / swap_fee_bps st) in *.
  set (iaf := inputAmount - tf) in *.
  assert (Hiaf : 0 < iaf).
  { destruct (Z.eq_dec iaf 0) as [E | E]; [| lia].
    rewrite E, Z.mul_0_r in Hout. rewrite Zdiv_0_l in Hout; lia. }
  split; [lia |]. split; [lia |].
  intros Hrin.
  set (out := rout * iaf / (rin + iaf)) in *.
  assert (Hfloor : (rin + iaf) * out <= rout * iaf)
    by (subst out; apply Z.mul_div_le; lia).
  nia.
Qed.

Lemma swap_moves_reserves_witness :
  exists st' txns,
    swap (Scenario.as_ Scenario.trader) 1000 0 Scenario.funded = Ok (st', txns) /\
    100000 < primary_token_reserve st' /\
    0 < secondary_token_reserve st' < 100000.
Proof.
  eexists; eexists. split; [reflexivity |].
  destruct (swap_moves_reserves (Scenario.as_ Scenario.trader) 1000 0
              Scenario.funded _ _ eq_refl) as (Hin & Hout & Hpos).
  split; [exact Hin |]. split; [apply Hpos; reflexivity | apply Hout].
Defined.

(** X5. Swaps succeed only while the swap fee is strictly between 0 and
    10000 basis points: at 0 the fee ratio divides by zero and from 10000
    on nothing is left of the input, so an admin who sets such a fee
    (no update validates it) stops all trading. *)
Theorem swap_needs_fee_in_range (ctx : Context) (inputAmount swapType : Z)
    (st st' : State) (txns : list InnerTxn) :
  0 <= st.(swap_fee_bps) ->
  swap ctx inputAmount swapType st = Ok (st', txns) ->
  0 < st.(swap_fee_bps) < 10000.
Proof.
  intros Hsf H.
  apply swap_Ok in H as (q & _ & Hpos & Hq & _).
  apply swap_quote_inv in Hq as (_ & Hs & _ & Htf & _ & Hout & _ & _).
  cbv zeta in *.
  set (tf := inputAmount * swap_fee_bps st / 10000) in *.
  split; [lia |].
  destruct (Z_lt_le_dec (swap_fee_bps st) 10000) as [Hlt | Hge]; [exact Hlt |].
  exfalso.
  assert (Hin : inputAmount <= tf)
    by (subst tf; apply Z.div_le_lower_bound; nia).
  assert (E : inputAmount - tf = 0) by lia.
  rewrite E, Z.mul_0_r in Hout. rewrite Zdiv_0_l in Hout; lia.
Qed.

Lemma swap_needs_fee_in_range_witness :
  0 < swap_fee_bps Scenario.funded < 10000.
Proof.
  apply (swap_needs_fee_in_range (Scenario.as_ Scenario.trader) 1000 0
           Scenario.funded _ _ ltac:(discriminate) eq_refl).
Defined.

(** ** Outcomes: which failure a call reports *)

Lemma wideRatio_cases (a b d : Z) :
  (d <> 0 /\ a * b / d <= MAX_UINT64 /\ wideRatio [a; b] [d] = Ok (a * b / d)) \/
  (d = 0 /\ wideRatio [a; b] [d] = Err DivisionByZero) \/
  (d <> 0 /\ MAX_UINT64 < a * b / d /\ wideRatio [a; b] [d] = Err ArithmeticOverflow).
Proof.
  unfold wideRatio, product. simpl fold_right. rewrite !Z.mul_1_r.
  destruct (d =? 0) eqn:Ed.
  - apply Z.eqb_eq in Ed. auto.
  - apply Z.eqb_neq in Ed.
    destruct (a * b / d <=? MAX_UINT64) eqn:Eq.
    + apply Z.leb_le in Eq. auto.
    + apply Z.leb_gt in Eq. auto.
Qed.

Lemma sub64_cases (a b : Z) :
  (b <= a /\ sub64 a b = Ok (a - b)) \/
  (a < b /\ sub64 a b = Err ArithmeticUnderflow).
Proof.
  unfold sub64. destruct (b <=? a) eqn:E.
  - apply Z.leb_le in E. auto.
  - apply Z.leb_gt in E. auto.
Qed.

Lemma add64_cases (a b : Z) :
  (a + b <= MAX_UINT64 /\ add64 a b = Ok (a + b)) \/
  (MAX_UINT64 < a + b /\ add64 a b = Err ArithmeticOverflow).
Proof.
  unfold add64. destruct (a + b <=? MAX_UINT64) eqn:E.
  - apply Z.leb_le in E. auto.
  - apply Z.leb_gt in E. auto.
Qed.

Lemma mul64_cases (a b : Z) :
  (a * b <= MAX_UINT64 /\ mul64 a b = Ok (a * b)) \/
  (MAX_UINT64 < a * b /\ mul64 a b = Err ArithmeticOverflow).
Proof.
  unfold mul64. destruct (a * b <=? MAX_UINT64) eqn:E.
  - apply Z.leb_le in E. auto.
  - apply Z.leb_gt in E. auto.
Qed.

(** How the pricing can end, in terms of the exact quote. *)
Lemma swap_quote_outcomes (inputAmount swapFeeBps protocolFeeBps reserveIn reserveOut : Z) :
  let tf := inputAmount * swapFeeBps / 10000 in
  let iaf := inputAmount - tf in
  let out := reserveOut * iaf / (reserveIn + iaf) in
  match swap_quote inputAmount swapFeeBps protocolFeeBps reserveIn reserveOut with
  | Ok _ => 0 < out
  | Err SwapTooSmall => swapFeeBps <> 0 /\ reserveIn + iaf <> 0 /\ out <= 0
  | Err DivisionByZero => swapFeeBps = 0 \/ reserveIn + iaf = 0
  | Err ArithmeticOverflow => True
  | Err ArithmeticUnderflow => True
  | Err _ => False
  end.
Proof.
  cbv zeta. unfold swap_quote, swap_fees.
  destruct (wideRatio_cases inputAmount swapFeeBps 10000)
    as [(_ & _ & ->) | [(Hd & _) | (_ & _ & ->)]]; cbn [bind];
    [| discriminate Hd | exact I].
  set (tf := inputAmount * swapFeeBps / 10000).
  destruct (wideRatio_cases tf protocolFeeBps swapFeeBps)
    as [(Hs & _ & ->) | [(Hs & ->) | (_ & _ & ->)]]; cbn [bind];
    [| left; exact Hs | exact I].
  destruct (sub64_cases tf (tf * protocolFeeBps / swapFeeBps))
    as [(_ & ->) | (_ & ->)]; cbn [bind]; [| exact I].
  destruct (sub64_cases inputAmount tf) as [(_ & ->) | (_ & ->)];
    cbn [bind inputAfterFee lpFee]; [| exact I].
  set (iaf := inputAmount - tf).
  destruct (mul64_cases reserveOut iaf) as [(_ & ->) | (_ & ->)];
    cbn [bind]; [| exact I].
  destruct (add64_cases reserveIn iaf) as [(_ & ->) | (_ & ->)];
    cbn [bind]; [| exact I].
  unfold div64. destruct (reserveIn + iaf =? 0) eqn:Eden; cbn [bind].
  { right. apply Z.eqb_eq. exact Eden. }
  apply Z.eqb_neq in Eden.
  destruct (0 <? reserveOut * iaf / (reserveIn + iaf)) eqn:Eout; cbn [assert bind].
  2: { apply Z.ltb_ge in Eout. auto. }
  apply Z.ltb_lt in Eout.
  destruct (add64_cases (reserveIn + iaf) (tf - tf * protocolFeeBps / swapFeeBps))
    as [(_ & ->) | (_ & ->)]; cbn [bind]; [| exact I].
  destruct (sub64_cases reserveOut (reserveOut * iaf / (reserveIn + iaf)))
    as [(_ & ->) | (_ & ->)]; cbn [bind]; [exact Eout | exact I].
Qed.

(** X6. What [swap] reports.  An unknown direction is rejected first
    ([InvalidSwapType], whatever the amount), then a zero input
    ([InvalidAmount]); [SwapTooSmall] means the constant-product output
    rounds to zero, and a division by zero means a zero swap fee or an
    empty denominator.  [swap] never reports an authorization, deposit
    verification or LP supply failure, and it succeeds only with a valid
    direction, a positive input and a positive output. *)
Theorem swap_outcomes (ctx : Context) (inputAmount swapType : Z) (st : State) :
  let valid := swapType = 0 \/ swapType = 1 in
  let tf := inputAmount * st.(swap_fee_bps) / 10000 in
  let iaf := inputAmount - tf in
  let out := reserve_out swapType st * iaf / (reserve_in swapType st + iaf) in
  match swap ctx inputAmount swapType st with
  | Ok _ => valid /\ 0 < inputAmount /\ 0 < out
  | Err InvalidSwapType => swapType <> 0 /\ swapType <> 1
  | Err InvalidAmount => valid /\ inputAmount <= 0
  | Err SwapTooSmall =>
      valid /\ 0 < inputAmount /\ st.(swap_fee_bps) <> 0 /\
      reserve_in swapType st + iaf <> 0 /\ out <= 0
  | Err DivisionByZero =>
      valid /\ 0 < inputAmount /\
      (st.(swap_fee_bps) = 0 \/ reserve_in swapType st + iaf = 0)
  | Err ArithmeticOverflow => valid /\ 0 < inputAmount
  | Err ArithmeticUnderflow => valid /\ 0 < inputAmount
  | Err Unauthorized => False
  | Err PreconditionFailed => False
  | Err InsufficientSupply => False
  end.
Proof.
  cbv zeta. unfold swap, reserve_in, reserve_out.
  destruct (swapType =? 0) eqn:E0; [| destruct (swapType =? 1) eqn:E1].
  3: { cbn [bind]. split; apply Z.eqb_neq; assumption. }
  all: assert (Hv : swapType = 0 \/ swapType = 1)
         by (first [left; apply Z.eqb_eq; assumption
                   | right; apply Z.eqb_eq; assumption]).
  all: cbn [bind fst snd].
  all: destruct (0 <? inputAmount) eqn:Ep; cbn [assert bind];
         [apply Z.ltb_lt in Ep | apply Z.ltb_ge in Ep; auto].
  all: match goal with
       | |- context [swap_quote ?a ?b ?c ?rin ?rout] =>
           pose proof (swap_quote_outcomes a b c rin rout) as Hq;
           cbv zeta in Hq;
           destruct (swap_quote a b c rin rout) as [q | e]; cbn [bind]
       end.
  all: try (destruct e; try contradiction; intuition).
  all: destruct (mul64_cases (newReserveIn q) (newReserveOut q))
         as [(_ & ->) | (_ & ->)]; cbn [bind]; auto.
Qed.

Lemma swap_outcomes_witness :
  swap (Scenario.as_ Scenario.trader) 0 7 Scenario.funded = Err InvalidSwapType /\
  swap (Scenario.as_ Scenario.trader) 0 1 Scenario.funded = Err InvalidAmount /\
  swap (Scenario.as_ Scenario.trader) 1 0 Scenario.funded = Err SwapTooSmall /\
  100000 * 1 / (100000 + 1) <= 0.
Proof.
  repeat (split; [reflexivity |]).
  pose proof (swap_outcomes (Scenario.as_ Scenario.trader) 1 0 Scenario.funded) as H.
  change (swap (Scenario.as_ Scenario.trader) 1 0 Scenario.funded)
    with (@Err (State * list InnerTxn) SwapTooSmall) in H.
  cbv zeta in H. destruct H as (_ & _ & _ & _ & H). exact H.
Defined.

(** ** Liquidity: outcomes and bookkeeping *)

(** X7. What [removeLiquidity] reports, check by check: a zero burn is
    [InvalidAmount]; a burn above [total_lp_supply] is
    [InsufficientSupply]; a burn transaction that is not the sender's
    transfer of that many LP tokens to the pool is [PreconditionFailed];
    an overflowing reserve product is [ArithmeticOverflow]; a burn above
    [lp_tokens_issued] is [ArithmeticUnderflow]; otherwise the call
    succeeds.  The conditions exclude one another, so each outcome occurs
    exactly under its condition. *)
Theorem removeLiquidity_outcomes (ctx : Context) (burnTxn : AssetTransferTxn)
    (lpTokensBurned : Z) (st : State) :
  wf_state st ->
  let pw := lpTokensBurned * st.(primary_token_reserve) / st.(total_lp_supply) in
  let sw := lpTokensBurned * st.(secondary_token_reserve) / st.(total_lp_supply) in
  let k := (st.(primary_token_reserve) - pw) * (st.(secondary_token_reserve) - sw) in
  let in_supply := 0 < lpTokensBurned <= st.(total_lp_supply) in
  let verified :=
    burnTxn = mkAssetTransferTxn ctx.(sender) ctx.(app_address) st.(lp_token_id)
                lpTokensBurned in
  match removeLiquidity ctx burnTxn lpTokensBurned st with
  | Ok _ =>
      in_supply /\ verified /\ k <= MAX_UINT64 /\
      lpTokensBurned <= st.(lp_tokens_issued)
  | Err InvalidAmount => lpTokensBurned <= 0
  | Err InsufficientSupply => 0 < lpTokensBurned /\ st.(total_lp_supply) < lpTokensBurned
  | Err PreconditionFailed => in_supply /\ ~ verified
  | Err ArithmeticOverflow => in_supply /\ verified /\ MAX_UINT64 < k
  | Err ArithmeticUnderflow =>
      in_supply /\ verified /\ k <= MAX_UINT64 /\
      st.(lp_tokens_issued) < lpTokensBurned
  | Err _ => False
  end.
Proof.
  intros Hwf. cbv zeta.
  destruct Hwf as (Hpr & Hsr & _ & _ & Htl & _).
  unfold uint64 in *. unfold removeLiquidity.
  destruct (0 <? lpTokensBurned) eqn:Ep; cbn [assert bind];
    [apply Z.ltb_lt in Ep | apply Z.ltb_ge in Ep; exact Ep].
  destruct (lpTokensBurned <=? total_lp_supply st) eqn:Es; cbn [assert bind];
    [apply Z.leb_le in Es | apply Z.leb_gt in Es; auto].
  destruct (verifyAssetTransferTxn_cases burnTxn (sender ctx) (app_address ctx)
              (lp_token_id st) lpTokensBurned) as [Hv | Hv]; rewrite Hv; cbn [bind].
  2: { split; [lia |]. intros ->.
       rewrite verifyAssetTransferTxn_eval in Hv by reflexivity. discriminate Hv. }
  apply verifyAssetTransferTxn_Ok in Hv as (Hb1 & Hb2 & Hb3 & Hb4).
  assert (Hver : burnTxn = mkAssetTransferTxn (sender ctx) (app_address ctx)
                             (lp_token_id st) lpTokensBurned)
    by (destruct burnTxn; simpl in *; subst; reflexivity).
  set (pr := primary_token_reserve st) in *.
  set (sr := secondary_token_reserve st) in *.
  set (tot := total_lp_supply st) in *.
  pose proof (div_le_when_scaled pr lpTokensBurned tot) as Hpw.
  pose proof (div_le_when_scaled sr lpTokensBurned tot) as Hsw.
  rewrite (Z.mul_comm pr) in Hpw. rewrite (Z.mul_comm sr) in Hsw.
  rewrite (wideRatio_eval lpTokensBurned pr tot) by lia. cbn [bind].
  rewrite (wideRatio_eval lpTokensBurned sr tot) by lia. cbn [bind].
  rewrite !sub64_eval by lia. cbn [bind].
  destruct (mul64_cases (pr - lpTokensBurned * pr / tot)
              (sr - lpTokensBurned * sr / tot)) as [(Hk & ->) | (Hk & ->)];
    cbn [bind]; [| auto].
  rewrite add64_eval by lia. cbn [bind].
  destruct (sub64_cases (lp_tokens_issued st) lpTokensBurned)
    as [(Hi & ->) | (Hi & ->)]; cbn [bind]; auto.
Qed.

Lemma removeLiquidity_outcomes_witness :
  removeLiquidity (Scenario.as_ Scenario.provider)
    (Scenario.deposit Scenario.provider Scenario.lpAssetId 100001) 100001
    Scenario.funded = Err ArithmeticUnderflow /\
  lp_tokens_issued Scenario.funded < 100001.
Proof.
  split; [reflexivity |].
  assert (Hwf : wf_state Scenario.funded)
    by (unfold wf_state, uint64; vm_compute; repeat split; discriminate).
  pose proof (removeLiquidity_outcomes (Scenario.as_ Scenario.provider)
                (Scenario.deposit Scenario.provider Scenario.lpAssetId 100001)
                100001 Scenario.funded Hwf) as H.
  change (removeLiquidity (Scenario.as_ Scenario.provider)
            (Scenario.deposit Scenario.provider Scenario.lpAssetId 100001) 100001
            Scenario.funded)
    with (@Err (State * list InnerTxn) ArithmeticUnderflow) in H.
  cbv zeta in H. destruct H as (_ & _ & _ & H). exact H.
Defined.

(** X8. The bookkeeping of a successful [removeLiquidity] matches what it
    pays: the two amounts sent to the sender (a payment when the asset
    identifier is 0, an asset transfer otherwise) are exactly what the
    reserves lose, each between 0 and its reserve, and the burned units
    leave [lp_tokens_issued]. *)
Theorem removeLiquidity_conserves_tokens (ctx : Context) (burnTxn : AssetTransferTxn)
    (lpTokensBurned : Z) (st st' : State) (txns : list InnerTxn) :
  wf_state st ->
  removeLiquidity ctx burnTxn lpTokensBurned st = Ok (st', txns) ->
  exists primaryWithdrawn secondaryWithdrawn,
    txns = [sendAsset st.(primary_token_id) ctx.(sender) primaryWithdrawn;
            sendAsset st.(secondary_token_id) ctx.(sender) secondaryWithdrawn] /\
    0 <= primaryWithdrawn <= st.(primary_token_reserve) /\
    0 <= secondaryWithdrawn <= st.(secondary_token_reserve) /\
    st'.(primary_token_reserve) + primaryWithdrawn = st.(primary_token_reserve) /\
    st'.(secondary_token_reserve) + secondaryWithdrawn = st.(secondary_token_reserve) /\
    st'.(lp_tokens_issued) + lpTokensBurned = st.(lp_tokens_issued).
Proof.
  intros Hwf H.
  destruct Hwf as (Hpr & Hsr & _ & _ & Htl & _). unfold uint64 in *.
  apply removeLiquidity_inv in H as (Hn & _ & Hpw & Hsw & _ & _ & -> & ->).
  eexists; eexists. split; [reflexivity |]. cbn.
  repeat split; try lia; apply Z_div_nonneg_nonneg; nia.
Qed.

Lemma removeLiquidity_conserves_tokens_witness :
  let ctx := Scenario.as_ Scenario.provider in
  let st := set_total_lp_supply 400000 Scenario.funded in
  let st' := step st (ctx, Scenario.remove_call Scenario.provider 100000) in
  exists primaryWithdrawn secondaryWithdrawn,
    [AssetTransfer 1001 Scenario.provider 25000;
     AssetTransfer 1002 Scenario.provider 25000]
      = [sendAsset st.(primary_token_id) ctx.(sender) primaryWithdrawn;
         sendAsset st.(secondary_token_id) ctx.(sender) secondaryWithdrawn] /\
    0 <= primaryWithdrawn <= st.(primary_token_reserve) /\
    0 <= secondaryWithdrawn <= st.(secondary_token_reserve) /\
    st'.(primary_token_reserve) + primaryWithdrawn = st.(primary_token_reserve) /\
    st'.(secondary_token_reserve) + secondaryWithdrawn = st.(secondary_token_reserve) /\
    st'.(lp_tokens_issued) + 100000 = st.(lp_tokens_issued).
Proof.
  intros ctx st st'.
  assert (Hwf : wf_state st)
    by (unfold wf_state, uint64; vm_compute; repeat split; discriminate).
  apply (removeLiquidity_conserves_tokens ctx
           (Scenario.deposit Scenario.provider Scenario.lpAssetId 100000) 100000
           st st' _ Hwf).
  vm_compute. reflexivity.
Defined.

(** X9. The bookkeeping of a successful [addLiquidity] matches what it
    moves: both deposits enter the reserves in full, and the LP units sent
    to the sender are exactly those taken from [total_lp_supply] and added
    to [lp_tokens_issued]; that number is never negative nor above
    [total_lp_supply], and on a first deposit it is the integer square root
    of the product of the two amounts. *)
Theorem addLiquidity_books_what_it_moves (ctx : Context)
    (primaryAmount secondaryAmount : Z) (pt stx : AssetTransferTxn)
    (st st' : State) (txns : list InnerTxn) :
  wf_state st -> uint64 primaryAmount -> uint64 secondaryAmount ->
  addLiquidity ctx primaryAmount secondaryAmount pt stx st = Ok (st', txns) ->
  exists lpTokensMinted,
    txns = [AssetTransfer st.(lp_token_id) ctx.(sender) lpTokensMinted] /\
    0 <= lpTokensMinted <= st.(total_lp_supply) /\
    st'.(primary_token_reserve) = st.(primary_token_reserve) + primaryAmount /\
    st'.(secondary_token_reserve) = st.(secondary_token_reserve) + secondaryAmount /\
    st'.(total_lp_supply) + lpTokensMinted = st.(total_lp_supply) /\
    st'.(lp_tokens_issued) = st.(lp_tokens_issued) + lpTokensMinted /\
    (st.(lp_tokens_issued) = 0 ->
     lpTokensMinted * lpTokensMinted <= primaryAmount * secondaryAmount
       < (lpTokensMinted + 1) * (lpTokensMinted + 1)).
Proof.
  intros Hwf Hp Hs H.
  destruct Hwf as (Hpr & Hsr & _ & _ & Htl & _). unfold uint64 in *.
  assert (Hm : 0 <= minted_by_code primaryAmount secondaryAmount st)
    by (apply minted_by_code_nonneg; lia).
  apply addLiquidity_inv in H as (_ & _ & _ & Hmt & _ & _ & -> & ->).
  eexists. split; [reflexivity |]. cbn.
  do 5 (split; [lia |]).
  intros Hi. unfold minted_by_code, sqrt. rewrite Hi. cbn [Z.eqb].
  pose proof (Z.sqrt_spec (primaryAmount * secondaryAmount)) as Hsq.
  cbv zeta in Hsq. unfold Z.succ in Hsq. apply Hsq. nia.
Qed.

Lemma addLiquidity_books_what_it_moves_witness :
  let ctx := Scenario.as_ Scenario.provider in
  let st := Scenario.initialized 30 5 in
  let st' := step st (ctx, Scenario.add_call Scenario.provider 100000 100000) in
  exists lpTokensMinted,
    [AssetTransfer 1003 Scenario.provider 100000]
      = [AssetTransfer st.(lp_token_id) ctx.(sender) lpTokensMinted] /\
    0 <= lpTokensMinted <= st.(total_lp_supply) /\
    st'.(primary_token_reserve) = st.(primary_token_reserve) + 100000 /\
    st'.(secondary_token_reserve) = st.(secondary_token_reserve) + 100000 /\
    st'.(total_lp_supply) + lpTokensMinted = st.(total_lp_supply) /\
    st'.(lp_tokens_issued) = st.(lp_tokens_issued) + lpTokensMinted /\
    (st.(lp_tokens_issued) = 0 ->
     lpTokensMinted * lpTokensMinted <= 100000 * 100000
       < (lpTokensMinted + 1) * (lpTokensMinted + 1)).
Proof.
  intros ctx st st'.
  assert (Hwf : wf_state st)
    by (unfold wf_state, uint64; vm_compute; repeat split; discriminate).
  assert (Hu : uint64 100000) by (unfold uint64, MAX_UINT64; lia).
  apply (addLiquidity_books_what_it_moves ctx 100000 100000
           (Scenario.deposit Scenario.provider Scenario.primaryAssetId 100000)
           (Scenario.deposit Scenario.provider Scenario.secondaryAssetId 100000)
           st st' [AssetTransfer 1003 Scenario.provider 100000] Hwf Hu Hu).
  vm_compute. reflexivity.
Defined.

(** ** Authorization and frames *)

(** X10. Only the admin configures the pool: a successful call from anyone
    else (other than the creation call, which the ledger routes only when
    the application is created) leaves [admin], [treasury_address],
    [swap_fee_bps], [protocol_fee_bps], [minimum_balance] and
    [contract_ending] as they were. *)
Theorem only_admin_configures (ctx : Context) (c : Call) (st st' : State)
    (txns : list InnerTxn) :
  c <> CreateApplication ->
  ctx.(sender) <> st.(admin) ->
  call ctx c st = Ok (st', txns) ->
  forall f, is_config f = true -> read f st' = read f st.
Proof.
  intros Hc Hna H f Hf.
  pose proof (admin_call_inv ctx c st st' txns H) as Hadm.
  destruct c; cbn [call] in H; try (destruct Hadm as (Hs & _); contradiction).
  - contradiction.
  - apply initApplication_inv in H as (Hs & _). contradiction.
  - apply addLiquidity_inv in H as (_ & _ & _ & _ & _ & _ & -> & _).
    destruct f; try discriminate Hf; reflexivity.
  - apply removeLiquidity_inv in H as (_ & _ & _ & _ & _ & _ & -> & _).
    destruct f; try discriminate Hf; reflexivity.
  - apply swap_inv in H as (q & Hdir & _ & _ & _ & -> & _).
    destruct Hdir as [-> | ->]; destruct f; try discriminate Hf; reflexivity.
Qed.

Lemma only_admin_configures_witness :
  let ctx := Scenario.as_ Scenario.trader in
  let st' := step Scenario.funded (ctx, Swap 1000 0) in
  read F_swap_fee_bps st' = read F_swap_fee_bps Scenario.funded.
Proof.
  intros ctx st'.
  apply (only_admin_configures ctx (Swap 1000 0) Scenario.funded st'
           [AssetTransfer 1002 Scenario.trader 987]);
    [discriminate | vm_compute; discriminate | vm_compute; reflexivity | reflexivity].
Defined.

(** X11. What the trading calls leave alone: a successful [swap] writes
    only the two reserves and [k_value]; a successful [addLiquidity] or
    [removeLiquidity] writes only those and the LP counters
    [total_lp_supply] and [lp_tokens_issued].  In particular swaps never
    touch the LP counters, and no trading call touches the asset
    identifiers, the LP token description, the fees or the addresses. *)
Theorem trading_calls_frame (ctx : Context) (c : Call) (st st' : State)
    (txns : list InnerTxn) :
  call ctx c st = Ok (st', txns) ->
  match c with
  | Swap _ _ => forall f, swap_key f = false -> read f st' = read f st
  | AddLiquidity _ _ _ _ | RemoveLiquidity _ _ =>
      forall f, liquidity_key f = false -> read f st' = read f st
  | _ => True
  end.
Proof.
  intros H. destruct c; try exact I; cbn [call] in H.
  - apply addLiquidity_inv in H as (_ & _ & _ & _ & _ & _ & -> & _).
    intros f Hf. destruct f; try discriminate Hf; reflexivity.
  - apply removeLiquidity_inv in H as (_ & _ & _ & _ & _ & _ & -> & _).
    intros f Hf. destruct f; try discriminate Hf; reflexivity.
  - apply swap_inv in H as (q & Hdir & _ & _ & _ & -> & _).
    intros f Hf.
    destruct Hdir as [-> | ->]; destruct f; try discriminate Hf; reflexivity.
Qed.

Lemma trading_calls_frame_witness :
  let ctx := Scenario.as_ Scenario.trader in
  let st' := step Scenario.funded (ctx, Swap 1000 0) in
  read F_lp_tokens_issued st' = VUint 100000.
Proof.
  intros ctx st'.
  assert (Hcall : call ctx (Swap 1000 0) Scenario.funded
                  = Ok (st', [AssetTransfer 1002 Scenario.trader 987]))
    by (vm_compute; reflexivity).
  rewrite (trading_calls_frame ctx (Swap 1000 0) Scenario.funded st' _ Hcall
             F_lp_tokens_issued eq_refl).
  vm_compute. reflexivity.
Defined.

(** ** Re-initialization *)

(** X12. [initApplication] resets the reserves but not
    [lp_tokens_issued].  So once LP tokens are issued, a further successful
    [initApplication] leaves a pool that accepts no deposit (every
    [addLiquidity] takes the matching-ratio branch and divides by the zero
    reserve, unless it already fails the deposit verification) and no
    swap. *)
Theorem reinit_blocks_pool (ctx : Context) (mbrTxn : PayTxn)
    (primaryAssetId secondaryAssetId : Z) (lpAssetName lpAssetURL : string)
    (swapFeeBps protocolFeeBps : Z) (treasuryAddress : Address)
    (st st1 : State) (txns : list InnerTxn) :
  initApplication ctx mbrTxn primaryAssetId secondaryAssetId lpAssetName lpAssetURL
    swapFeeBps protocolFeeBps treasuryAddress st = Ok (st1, txns) ->
  st.(lp_tokens_issued) <> 0 ->
  (forall ctx' primaryAmount secondaryAmount pt stx,
     addLiquidity ctx' primaryAmount secondaryAmount pt stx st1
       = Err PreconditionFailed \/
     addLiquidity ctx' primaryAmount secondaryAmount pt stx st1
       = Err DivisionByZero) /\
  (forall ctx' inputAmount swapType r,
     swap ctx' inputAmount swapType st1 <> Ok r).
Proof.
  intros H Hiss.
  apply initApplication_inv in H as (_ & _ & -> & _).
  split.
  - intros ctx' pa sa pt stx. unfold addLiquidity.
    cbn [primary_token_reserve secondary_token_reserve total_lp_supply
         lp_tokens_issued primary_token_id secondary_token_id].
    destruct (verifyAssetTransferTxn_cases pt (sender ctx') (app_address ctx')
                primaryAssetId pa) as [-> | ->]; cbn [bind]; [| auto].
    destruct (verifyAssetTransferTxn_cases stx (sender ctx') (app_address ctx')
                secondaryAssetId sa) as [-> | ->]; cbn [bind]; [| auto].
    apply Z.eqb_neq in Hiss. rewrite Hiss.
    destruct (wideRatio_cases pa LP_TOKEN_SUPPLY 0)
      as [(Hd & _) | [(_ & ->) | (Hd & _)]]; try (exfalso; apply Hd; reflexivity).
    cbn [bind]. auto.
  - intros ctx' inputAmount swapType [st2 tx2] H.
    apply swap_Ok in H as (q & Hdir & _ & Hq & _).
    apply swap_quote_inv in Hq as (_ & _ & _ & _ & _ & Hout & Hle & _).
    cbv zeta in *.
    destruct Hdir as [-> | ->]; unfold reserve_out in Hle, Hout; cbn in Hle, Hout; lia.
Qed.

Lemma reinit_blocks_pool_witness :
  let st1 := step Scenario.funded
               (mkContext Scenario.deployer Scenario.pool 1004, Scenario.init_call 30 5) in
  addLiquidity (Scenario.as_ Scenario.provider) 1000 1000
    (Scenario.deposit Scenario.provider Scenario.primaryAssetId 1000)
    (Scenario.deposit Scenario.provider Scenario.secondaryAssetId 1000) st1
    = Err DivisionByZero.
Proof.
  intros st1.
  assert (Hinit : initApplication (mkContext Scenario.deployer Scenario.pool 1004)
                    (mkPayTxn Scenario.pool 403000) Scenario.primaryAssetId
                    Scenario.secondaryAssetId "LP-Asset" "https://lp-asset-url.com"
                    30 5 Scenario.treasury Scenario.funded
                  = Ok (st1, [AssetTransfer 1001 Scenario.pool 0;
                              AssetTransfer 1002 Scenario.pool 0;
                              AssetCreation LP_TOKEN_SUPPLY 6 "LP-Asset" "MLP"
                                "https://lp-asset-url.com"]))
    by (vm_compute; reflexivity).
  assert (Hiss : lp_tokens_issued Scenario.funded <> 0) by (vm_compute; discriminate).
  destruct (reinit_blocks_pool _ _ _ _ _ _ _ _ _ _ _ _ Hinit Hiss) as (Hadd & _).
  destruct (Hadd (Scenario.as_ Scenario.provider) 1000 1000
              (Scenario.deposit Scenario.provider Scenario.primaryAssetId 1000)
              (Scenario.deposit Scenario.provider Scenario.secondaryAssetId 1000))
    as [H | H]; [| exact H].
  exfalso. vm_compute in H. discriminate H.
Defined.

(** ** Swap: pricing across calls *)

Lemma fee_residue_monotone (x y s : Z) :
  0 <= s <= 10000 -> x <= y ->
  x - x * s / 10000 <= y - y * s / 10000.
Proof.
  intros Hs Hxy.
  assert (H : y * s / 10000 <= x * s / 10000 + (y - x)).
  { rewrite <- Z.div_add by lia. apply Z.div_le_mono; nia. }
  lia.
Qed.

Lemma quote_monotone (rin rout a b : Z) :
  0 <= rin -> 0 <= rout -> 0 < a <= b ->
  rout * a / (rin + a) <= rout * b / (rin + b).
Proof.
  intros Hrin Hrout Hab.
  set (q := rout * a / (rin + a)).
  assert (Hq : (rin + a) * q <= rout * a) by (apply Z.mul_div_le; lia).
  assert (Hqr : 0 <= q <= rout)
    by (subst q; apply div_le_when_scaled; lia).
  apply Z.div_le_lower_bound; [lia | nia].
Qed.

Lemma quote_input_positive (rin rout iaf : Z) :
  0 <= iaf -> 0 < rout * iaf / (rin + iaf) -> 0 < iaf.
Proof.
  intros H0 Hout. destruct (Z.eq_dec iaf 0) as [E | E]; [| lia].
  rewrite E, Z.mul_0_r, Zdiv_0_l in Hout. lia.
Qed.

Lemma fee_below_cap (inputAmount s : Z) :
  0 < inputAmount -> 0 < inputAmount - inputAmount * s / 10000 -> s < 10000.
Proof.
  intros Hpos Hiaf.
  destruct (Z_lt_le_dec s 10000) as [Hlt | Hge]; [exact Hlt | exfalso].
  assert (inputAmount <= inputAmount * s / 10000)
    by (apply Z.div_le_lower_bound; nia).
  lia.
Qed.

(** X13. The pricing is monotone: of two swaps of the same direction
    that succeed from the same state, the one with the larger input pays
    out at least as much (it leaves no more in the output reserve). *)
Theorem swap_output_monotone (ctx1 ctx2 : Context) (x y swapType : Z)
    (st st1 st2 : State) (tx1 tx2 : list InnerTxn) :
  wf_state st ->
  swap ctx1 x swapType st = Ok (st1, tx1) ->
  swap ctx2 y swapType st = Ok (st2, tx2) ->
  x <= y ->
  reserve_out swapType st2 <= reserve_out swapType st1.
Proof.
  intros Hwf H1 H2 Hxy.
  apply swap_Ok in H1 as (q1 & Hdir & Hx & Hq1 & _ & -> & _).
  apply swap_Ok in H2 as (q2 & _ & Hy & Hq2 & _ & -> & _).
  apply swap_quote_inv in Hq1 as (-> & _ & _ & Htf1 & _ & Hout1 & Hle1 & _).
  apply swap_quote_inv in Hq2 as (-> & _ & _ & Htf2 & _ & Hout2 & Hle2 & _).
  cbn [newReserveOut].
  assert (Hrin : 0 <= reserve_in swapType st /\ 0 <= swap_fee_bps st).
  { destruct Hwf as ((Hp & _) & (Hs & _) & _ & _ & _ & _ & _ & _ & _ &
                     (Hf & _) & _).
    unfold reserve_in. destruct (swapType =? 0); auto. }
  destruct Hrin as (Hrin & Hsf).
  set (rin := reserve_in swapType st) in *.
  set (rout := reserve_out swapType st) in *.
  set (s := swap_fee_bps st) in *.
  assert (Hiaf1 : 0 < x - x * s / 10000)
    by (apply (quote_input_positive rin rout); [lia | exact Hout1]).
  assert (Hs : s < 10000) by (apply (fee_below_cap x); assumption).
  pose proof (fee_residue_monotone x y s ltac:(lia) Hxy) as Hmono.
  pose proof (quote_monotone rin rout (x - x * s / 10000) (y - y * s / 10000)
                Hrin ltac:(lia) ltac:(lia)) as Hq.
  lia.
Qed.

Lemma swap_output_monotone_witness :
  let ctx := Scenario.as_ Scenario.trader in
  reserve_out 0 (step Scenario.funded (ctx, Swap 2000 0))
    <= reserve_out 0 (step Scenario.funded (ctx, Swap 1000 0)).
Proof.
  intros ctx.
  assert (Hwf : wf_state Scenario.funded)
    by (unfold wf_state, uint64; vm_compute; repeat split; discriminate).
  apply (swap_output_monotone ctx ctx 1000 2000 0 Scenario.funded _ _
           [AssetTransfer 1002 Scenario.trader 987]
           [AssetTransfer 1001 Scenario.treasury 1;
            AssetTransfer 1002 Scenario.trader 1955] Hwf);
    [vm_compute; reflexivity | vm_compute; reflexivity | lia].
Defined.

(** What one successful swap does to the reserves of its direction. *)
Lemma swap_effect (ctx : Context) (x swapType : Z) (st st' : State)
    (txns : list InnerTxn) :
  wf_state st ->
  swap ctx x swapType st = Ok (st', txns) ->
  exists fee out,
    (swapType = 0 \/ swapType = 1) /\
    0 <= fee < x /\ 0 < out <= reserve_out swapType st /\
    reserve_in swapType st' = reserve_in swapType st + x - fee /\
    reserve_out swapType st' = reserve_out swapType st - out /\
    reserve_in swapType st * reserve_out swapType st
      <= reserve_in swapType st' * reserve_out swapType st' /\
    wf_state st'.
Proof.
  intros Hwf H.
  assert (Hwf' : wf_state st')
    by exact (swap_keeps_uint64 ctx x swapType st st' txns Hwf H).
  assert (Hdom : 0 <= reserve_in swapType st /\ 0 <= swap_fee_bps st /\
                 0 <= protocol_fee_bps st).
  { destruct Hwf as ((Hp & _) & (Hs & _) & _ & _ & _ & _ & _ & _ & _ &
                     (Hf & _) & (Hpf & _) & _).
    unfold reserve_in. destruct (swapType =? 0); auto. }
  destruct Hdom as (Hrin & Hsf & Hpf).
  apply swap_Ok in H as (q & Hdir & Hx & Hq & -> & -> & _).
  apply swap_quote_inv in Hq as (-> & Hs & Hpft & Htf & _ & Hout & Hle & _).
  cbn [newReserveIn newReserveOut].
  set (rin := reserve_in swapType st) in *.
  set (rout := reserve_out swapType st) in *.
  set (tf := x * swap_fee_bps st / 10000) in *.
  set (pf := tf * protocol_fee_bps st / swap_fee_bps st) in *.
  assert (Htf0 : 0 <= tf) by (apply Z_div_nonneg_nonneg; nia).
  assert (Hpf0 : 0 <= pf) by (apply Z_div_nonneg_nonneg; nia).
  assert (Hiaf : 0 < x - tf)
    by (apply (quote_input_positive rin rout); [lia | exact Hout]).
  set (out := rout * (x - tf) / (rin + (x - tf))) in *.
  assert (Hfloor : (rin + (x - tf)) * out <= rout * (x - tf))
    by (subst out; apply Z.mul_div_le; lia).
  exists pf, out.
  split; [exact Hdir |]. split; [lia |]. split; [lia |].
  split; [lia |]. split; [reflexivity |]. split; [nia | exact Hwf'].
Qed.

Lemma reserve_sides_swap (t : Z) (st : State) :
  t = 0 \/ t = 1 ->
  reserve_in (1 - t) st = reserve_out t st /\
  reserve_out (1 - t) st = reserve_in t st.
Proof. intros [-> | ->]; split; reflexivity. Qed.

(** X14. Trading there and back gains nothing: after a successful swap
    of [x] in one direction, a successful swap in the opposite direction
    of at most what the first one paid out returns at most [x], and the
    pool's reserve of the first asset ends no lower than it started. *)
Theorem swap_round_trip_no_gain (ctx1 ctx2 : Context) (x y swapType : Z)
    (st st1 st2 : State) (tx1 tx2 : list InnerTxn) :
  wf_state st ->
  swap ctx1 x swapType st = Ok (st1, tx1) ->
  swap ctx2 y (1 - swapType) st1 = Ok (st2, tx2) ->
  y <= reserve_out swapType st - reserve_out swapType st1 ->
  reserve_in swapType st1 - reserve_in swapType st2 <= x /\
  reserve_in swapType st <= reserve_in swapType st2.
Proof.
  intros Hwf H1 H2 Hy.
  assert (Hrin : 0 <= reserve_in swapType st).
  { destruct Hwf as ((Hp & _) & (Hs & _) & _).
    unfold reserve_in. destruct (swapType =? 0); auto. }
  apply (swap_effect _ _ _ _ _ _ Hwf) in H1
    as (f1 & o1 & Hdir & Hf1 & Ho1 & Hin1 & Hout1 & Hk1 & Hwf1).
  apply (swap_effect _ _ _ _ _ _ Hwf1) in H2
    as (f2 & o2 & _ & Hf2 & Ho2 & Hin2 & Hout2 & Hk2 & _).
  destruct (reserve_sides_swap swapType st1 Hdir) as (Ea1 & Eb1).
  destruct (reserve_sides_swap swapType st2 Hdir) as (Ea2 & Eb2).
  rewrite Ea1, Eb1, Ea2, Eb2 in *.
  set (A0 := reserve_in swapType st) in *.
  set (B0 := reserve_out swapType st) in *.
  set (A1 := reserve_in swapType st1) in *.
  set (B1 := reserve_out swapType st1) in *.
  set (A2 := reserve_in swapType st2) in *.
  set (B2 := reserve_out swapType st2) in *.
  assert (HB2 : 0 < B2 <= B0) by lia.
  assert (Hk : A0 * B2 <= A2 * B2) by nia.
  assert (HA : A0 <= A2) by nia.
  split; lia.
Qed.

Lemma swap_round_trip_no_gain_witness :
  let ctx := Scenario.as_ Scenario.trader in
  let st1 := step Scenario.funded (ctx, Swap 1000 0) in
  let st2 := step st1 (ctx, Swap 987 1) in
  reserve_in 0 st1 - reserve_in 0 st2 <= 1000 /\
  reserve_in 0 Scenario.funded <= reserve_in 0 st2.
Proof.
  intros ctx st1 st2.
  assert (Hwf : wf_state Scenario.funded)
    by (unfold wf_state, uint64; vm_compute; repeat split; discriminate).
  apply (swap_round_trip_no_gain ctx ctx 1000 987 0 Scenario.funded st1 st2
           [AssetTransfer 1002 Scenario.trader 987]
           [AssetTransfer 1001 Scenario.trader 994] Hwf);
    [vm_compute; reflexivity | vm_compute; reflexivity | vm_compute; discriminate].
Defined.

(** X15. A swap never beats the pool's price: the output, valued at the
    input reserve, is at most the input valued at the output reserve left
    after the trade (and so at the one before it). *)
Theorem swap_no_better_than_spot (ctx : Context) (x swapType : Z)
    (st st' : State) (txns : list InnerTxn) :
  wf_state st ->
  swap ctx x swapType st = Ok (st', txns) ->
  let out := reserve_out swapType st - reserve_out swapType st' in
  out * reserve_in swapType st <= x * reserve_out swapType st' /\
  out * reserve_in swapType st <= x * reserve_out swapType st.
Proof.
  intros Hwf H. cbv zeta.
  assert (Hdom : 0 <= reserve_in swapType st /\ 0 <= swap_fee_bps st).
  { destruct Hwf as ((Hp & _) & (Hs & _) & _ & _ & _ & _ & _ & _ & _ &
                     (Hf & _) & _).
    unfold reserve_in. destruct (swapType =? 0); auto. }
  destruct Hdom as (Hrin & Hsf).
  apply swap_Ok in H as (q & _ & Hx & Hq & _ & -> & _).
  apply swap_quote_inv in Hq as (-> & _ & _ & Htf & _ & Hout & Hle & _).
  cbn [newReserveOut].
  set (rin := reserve_in swapType st) in *.
  set (rout := reserve_out swapType st) in *.
  set (tf := x * swap_fee_bps st / 10000) in *.
  assert (Htf0 : 0 <= tf) by (apply Z_div_nonneg_nonneg; nia).
  assert (Hiaf : 0 < x - tf)
    by (apply (quote_input_positive rin rout); [lia | exact Hout]).
  set (out := rout * (x - tf) / (rin + (x - tf))) in *.
  assert (Hfloor : (rin + (x - tf)) * out <= rout * (x - tf))
    by (subst out; apply Z.mul_div_le; lia).
  replace (rout - (rout - out)) with out by lia.
  split; nia.
Qed.

Lemma swap_no_better_than_spot_witness :
  let ctx := Scenario.as_ Scenario.trader in
  let st' := step Scenario.funded (ctx, Swap 1000 0) in
  let out := reserve_out 0 Scenario.funded - reserve_out 0 st' in
  out * reserve_in 0 Scenario.funded <= 1000 * reserve_out 0 st' /\
  out * reserve_in 0 Scenario.funded <= 1000 * reserve_out 0 Scenario.funded.
Proof.
  intros ctx st'.
  assert (Hwf : wf_state Scenario.funded)
    by (unfold wf_state, uint64; vm_compute; repeat split; discriminate).
  apply (swap_no_better_than_spot ctx 1000 0 Scenario.funded st'
           [AssetTransfer 1002 Scenario.trader 987] Hwf).
  vm_compute. reflexivity.
Defined.

(** X16. Outside [initApplication] the recorded allotment only shrinks:
    no successful call raises [total_lp_supply], and none raises
    [lp_tokens_issued + total_lp_supply] (deposits keep the sum,
    withdrawals lower it by the burned units). *)
Theorem lp_allotment_only_shrinks (ctx : Context) (c : Call) (st st' : State)
    (txns : list InnerTxn) :
  wf_state st -> args_uint64 ctx c -> is_init c = false ->
  call ctx c st = Ok (st', txns) ->
  st'.(total_lp_supply) <= st.(total_lp_supply) /\
  st'.(lp_tokens_issued) + st'.(total_lp_supply)
    <= st.(lp_tokens_issued) + st.(total_lp_supply).
Proof.
  intros Hwf Hargs Hni H.
  pose proof (admin_call_inv ctx c st st' txns H) as Hadm.
  destruct Hwf as (Hpr & Hsr & _ & _ & Htl & _). unfold uint64 in *.
  destruct c; cbn [call args_uint64 is_init] in *; unfold uint64 in Hargs;
    try discriminate Hni;
    try (destruct Hadm as (_ & ->); cbn; lia).
  - unfold createApplication in H. inversion H. cbn. lia.
  - assert (Hm : 0 <= minted_by_code primaryAmount secondaryAmount st)
      by (apply minted_by_code_nonneg; lia).
    apply addLiquidity_inv in H as (_ & _ & _ & _ & _ & _ & -> & _). cbn. lia.
  - apply removeLiquidity_inv in H as (Hn & _ & _ & _ & _ & _ & -> & _). cbn. lia.
  - apply swap_inv in H as (q & Hdir & _ & _ & _ & -> & _).
    destruct Hdir as [-> | ->]; cbn; lia.
Qed.

Lemma lp_allotment_only_shrinks_witness :
  let ctx := Scenario.as_ Scenario.provider in
  let st' := step Scenario.funded (ctx, Scenario.remove_call Scenario.provider 40000) in
  st'.(total_lp_supply) <= Scenario.funded.(total_lp_supply) /\
  st'.(lp_tokens_issued) + st'.(total_lp_supply)
    <= Scenario.funded.(lp_tokens_issued) + Scenario.funded.(total_lp_supply).
Proof.
  intros ctx st'.
  assert (Hwf : wf_state Scenario.funded)
    by (unfold wf_state, uint64; vm_compute; repeat split; discriminate).
  apply (lp_allotment_only_shrinks ctx
           (Scenario.remove_call Scenario.provider 40000) Scenario.funded st'
           [AssetTransfer 1001 Scenario.provider 0;
            AssetTransfer 1002 Scenario.provider 0] Hwf);
    [cbn; unfold uint64, MAX_UINT64; lia | reflexivity | vm_compute; reflexivity].
Defined.

(** X17. Handing over the admin role takes effect at once and
    exclusively: after a successful [updateAdmin], each of the six admin
    updates succeeds exactly for the new admin. *)
Theorem admin_handover (ctx : Context) (newAdmin : Address) (st st1 : State)
    (txns : list InnerTxn) :
  call ctx (UpdateAdmin newAdmin) st = Ok (st1, txns) ->
  forall ctx' c,
    is_admin_update c = true ->
    ((exists r, call ctx' c st1 = Ok r) <-> ctx'.(sender) = newAdmin).
Proof.
  intros H ctx' c Hc.
  apply admin_call_inv in H as (_ & ->).
  destruct (admin_check ctx' (set_admin newAdmin st)) as [Hno Hyes].
  cbn [admin set_admin] in Hno, Hyes.
  split.
  - intros ((st2 & tx2) & H2).
    pose proof (admin_call_inv ctx' c _ st2 tx2 H2) as Hadm.
    destruct c; try discriminate Hc; destruct Hadm as (Hs & _); exact Hs.
  - intros Hs. apply Hyes in Hs.
    destruct c; try discriminate Hc; cbn [call];
      unfold updateSwapFee, updateProtocolFee, updateAdmin, updateTreasury,
        updateMinimumBalance, updateContractEnding;
      cbn [admin set_admin]; rewrite Hs; cbn [assert bind]; eexists; reflexivity.
Qed.

Lemma admin_handover_witness :
  let st1 := step Scenario.funded
               (Scenario.as_ Scenario.deployer, UpdateAdmin Scenario.trader) in
  (exists r, call (Scenario.as_ Scenario.trader) (UpdateSwapFee 10) st1 = Ok r) /\
  ~ (exists r, call (Scenario.as_ Scenario.deployer) (UpdateSwapFee 10) st1 = Ok r).
Proof.
  intros st1.
  assert (Hcall : call (Scenario.as_ Scenario.deployer) (UpdateAdmin Scenario.trader)
                    Scenario.funded = Ok (st1, []))
    by (vm_compute; reflexivity).
  pose proof (admin_handover _ _ _ _ _ Hcall) as H.
  split.
  - apply (H (Scenario.as_ Scenario.trader) (UpdateSwapFee 10) eq_refl). reflexivity.
  - intros Hex.
    apply (H (Scenario.as_ Scenario.deployer) (UpdateSwapFee 10) eq_refl) in Hex.
    vm_compute in Hex. discriminate Hex.
Defined.

(** X18. Both directions are priced alike: swapping secondary for
    primary is swapping primary for secondary in the pool with the two
    assets exchanged, with the same outcome, inner transactions and
    (mirrored) state. *)
Theorem swap_direction_symmetry (ctx : Context) (inputAmount : Z) (st : State) :
  swap ctx inputAmount 1 st =
  match swap ctx inputAmount 0 (mirror st) with
  | Ok (st', txns) => Ok (mirror st', txns)
  | Err e => Err e
  end.
Proof.
  unfold swap. cbn [Z.eqb Pos.eqb bind fst snd].
  destruct (0 <? inputAmount); cbn [assert bind]; [| reflexivity].
  cbn [mirror primary_token_reserve secondary_token_reserve swap_fee_bps
       protocol_fee_bps].
  destruct (swap_quote inputAmount (swap_fee_bps st) (protocol_fee_bps st)
              (secondary_token_reserve st) (primary_token_reserve st))
    as [q | e]; cbn [bind]; [| reflexivity].
  destruct (mul64 (newReserveIn q) (newReserveOut q)) as [k | e];
    cbn [bind]; [| reflexivity].
  destruct st; reflexivity.
Qed.

(** X19. Capacity: after a successful deposit, withdrawal or swap the
    product of the two reserves fits in a uint64, so the pool cannot be
    brought to reserves whose product exceeds 2^64 - 1. *)
Theorem reserve_product_capped (ctx : Context) (c : Call) (st st' : State)
    (txns : list InnerTxn) :
  is_trade c = true ->
  call ctx c st = Ok (st', txns) ->
  st'.(primary_token_reserve) * st'.(secondary_token_reserve) <= MAX_UINT64.
Proof.
  intros Hc H. destruct c; try discriminate Hc; cbn [call] in H.
  - apply addLiquidity_inv in H as (_ & _ & Hk & _ & _ & _ & -> & _). exact Hk.
  - apply removeLiquidity_inv in H as (_ & _ & _ & _ & Hk & _ & -> & _). exact Hk.
  - apply swap_inv in H as (q & Hdir & _ & _ & Hk & -> & _).
    rewrite max_uint64_value in *.
    destruct Hdir as [-> | ->]; cbn; lia.
Qed.

Lemma reserve_product_capped_witness :
  let ctx := Scenario.as_ Scenario.trader in
  let st' := step Scenario.funded (ctx, Swap 1000 0) in
  st'.(primary_token_reserve) * st'.(secondary_token_reserve) <= MAX_UINT64.
Proof.
  intros ctx st'.
  apply (reserve_product_capped ctx (Swap 1000 0) Scenario.funded st'
           [AssetTransfer 1002 Scenario.trader 987] eq_refl).
  vm_compute. reflexivity.
Defined.

(** ** Deposits: outcomes and limits *)

Lemma wideRatio1_cases (n d : Z) :
  (d <> 0 /\ n / d <= MAX_UINT64 /\ wideRatio [n] [d] = Ok (n / d)) \/
  (d = 0 /\ wideRatio [n] [d] = Err DivisionByZero) \/
  (d <> 0 /\ MAX_UINT64 < n / d /\ wideRatio [n] [d] = Err ArithmeticOverflow).
Proof.
  unfold wideRatio, product. simpl fold_right. rewrite !Z.mul_1_r.
  destruct (d =? 0) eqn:Ed.
  - apply Z.eqb_eq in Ed. auto.
  - apply Z.eqb_neq in Ed.
    destruct (n / d <=? MAX_UINT64) eqn:Eq.
    + apply Z.leb_le in Eq. auto.
    + apply Z.leb_gt in Eq. auto.
Qed.

Lemma verified_transfer (txn : AssetTransferTxn) (snd rcv : Address)
    (asset amount : Z) :
  verifyAssetTransferTxn txn snd rcv asset amount = Ok tt <->
  txn = mkAssetTransferTxn snd rcv asset amount.
Proof.
  split.
  - intros H. apply verifyAssetTransferTxn_Ok in H as (H1 & H2 & H3 & H4).
    destruct txn; simpl in *; subst; reflexivity.
  - intros ->. apply verifyAssetTransferTxn_eval; reflexivity.
Qed.

(** X20. What [addLiquidity] reports.  It fails with
    [PreconditionFailed] exactly when one of the two deposits is not the
    sender's transfer of the stated amount of the pool's asset; a division
    by zero means LP tokens are issued while a reserve is empty; an
    underflow means the mint exceeds [total_lp_supply]; it never reports
    an invalid amount.  It succeeds only if, once LP tokens are issued,
    both reserves are non-zero and [secondaryAmount * total_lp_supply]
    fits in a uint64 (the primary side has no such limit). *)
Theorem addLiquidity_outcomes (ctx : Context) (primaryAmount secondaryAmount : Z)
    (pt stx : AssetTransferTxn) (st : State) :
  let verified :=
    pt = mkAssetTransferTxn ctx.(sender) ctx.(app_address)
           st.(primary_token_id) primaryAmount /\
    stx = mkAssetTransferTxn ctx.(sender) ctx.(app_address)
            st.(secondary_token_id) secondaryAmount in
  let m := minted_by_code primaryAmount secondaryAmount st in
  match addLiquidity ctx primaryAmount secondaryAmount pt stx st with
  | Ok _ =>
      verified /\ m <= st.(total_lp_supply) /\
      (st.(lp_tokens_issued) <> 0 ->
       st.(primary_token_reserve) <> 0 /\ st.(secondary_token_reserve) <> 0 /\
       secondaryAmount * st.(total_lp_supply) <= MAX_UINT64)
  | Err PreconditionFailed => ~ verified
  | Err DivisionByZero =>
      verified /\ st.(lp_tokens_issued) <> 0 /\
      (st.(primary_token_reserve) = 0 \/ st.(secondary_token_reserve) = 0)
  | Err ArithmeticUnderflow => verified /\ st.(total_lp_supply) < m
  | Err ArithmeticOverflow => verified
  | Err _ => False
  end.
Proof.
  cbv zeta. unfold addLiquidity, minted_by_code.
  destruct (verifyAssetTransferTxn_cases pt (sender ctx) (app_address ctx)
              (primary_token_id st) primaryAmount) as [Hv1 | Hv1];
    rewrite Hv1; cbn [bind].
  2: { intros (Hp & _). apply verified_transfer in Hp. congruence. }
  destruct (verifyAssetTransferTxn_cases stx (sender ctx) (app_address ctx)
              (secondary_token_id st) secondaryAmount) as [Hv2 | Hv2];
    rewrite Hv2; cbn [bind].
  2: { intros (_ & Hs). apply verified_transfer in Hs. congruence. }
  apply verified_transfer in Hv1. apply verified_transfer in Hv2.
  assert (Hver : pt = mkAssetTransferTxn (sender ctx) (app_address ctx)
                        (primary_token_id st) primaryAmount /\
                 stx = mkAssetTransferTxn (sender ctx) (app_address ctx)
                         (secondary_token_id st) secondaryAmount) by auto.
  clear Hv1 Hv2.
  set (pr := primary_token_reserve st) in *.
  set (sr := secondary_token_reserve st) in *.
  set (tot := total_lp_supply st) in *.
  assert (Htail : forall m,
    (lp_tokens_issued st <> 0 ->
     pr <> 0 /\ sr <> 0 /\ secondaryAmount * tot <= MAX_UINT64) ->
    match
      (newPrimary <- add64 pr primaryAmount;;
       newSecondary <- add64 sr secondaryAmount;;
       newSupply <- sub64 tot m;;
       k <- mul64 newPrimary newSecondary;;
       newIssued <- add64 (lp_tokens_issued st) m;;
       Ok (set_lp_tokens_issued newIssued
             (set_k_value k
                (set_total_lp_supply newSupply
                   (set_secondary_token_reserve newSecondary
                      (set_primary_token_reserve newPrimary st)))),
           [AssetTransfer
              (lp_token_id
                 (set_lp_tokens_issued newIssued
                    (set_k_value k
                       (set_total_lp_supply newSupply
                          (set_secondary_token_reserve newSecondary
                             (set_primary_token_reserve newPrimary st))))))
              (sender ctx) m]))
    with
    | Ok _ =>
        (pt = mkAssetTransferTxn (sender ctx) (app_address ctx)
                (primary_token_id st) primaryAmount /\
         stx = mkAssetTransferTxn (sender ctx) (app_address ctx)
                 (secondary_token_id st) secondaryAmount) /\
        m <= tot /\
        (lp_tokens_issued st <> 0 ->
         pr <> 0 /\ sr <> 0 /\ secondaryAmount * tot <= MAX_UINT64)
    | Err PreconditionFailed =>
        ~ (pt = mkAssetTransferTxn (sender ctx) (app_address ctx)
                  (primary_token_id st) primaryAmount /\
           stx = mkAssetTransferTxn (sender ctx) (app_address ctx)
                   (secondary_token_id st) secondaryAmount)
    | Err DivisionByZero =>
        (pt = mkAssetTransferTxn (sender ctx) (app_address ctx)
                (primary_token_id st) primaryAmount /\
         stx = mkAssetTransferTxn (sender ctx) (app_address ctx)
                 (secondary_token_id st) secondaryAmount) /\
        lp_tokens_issued st <> 0 /\ (pr = 0 \/ sr = 0)
    | Err ArithmeticUnderflow =>
        (pt = mkAssetTransferTxn (sender ctx) (app_address ctx)
                (primary_token_id st) primaryAmount /\
         stx = mkAssetTransferTxn (sender ctx) (app_address ctx)
                 (secondary_token_id st) secondaryAmount) /\ tot < m
    | Err ArithmeticOverflow =>
        pt = mkAssetTransferTxn (sender ctx) (app_address ctx)
               (primary_token_id st) primaryAmount /\
        stx = mkAssetTransferTxn (sender ctx) (app_address ctx)
                (secondary_token_id st) secondaryAmount
    | Err _ => False
    end).
  { intros m Hres.
    destruct (add64_cases pr primaryAmount) as [(_ & ->) | (_ & ->)];
      cbn [bind]; [| exact Hver].
    destruct (add64_cases sr secondaryAmount) as [(_ & ->) | (_ & ->)];
      cbn [bind]; [| exact Hver].
    destruct (sub64_cases tot m) as [(Hm & ->) | (Hm & ->)];
      cbn [bind]; [| auto].
    destruct (mul64_cases (pr + primaryAmount) (sr + secondaryAmount))
      as [(_ & ->) | (_ & ->)]; cbn [bind]; [| exact Hver].
    destruct (add64_cases (lp_tokens_issued st) m) as [(_ & ->) | (_ & ->)];
      cbn [bind]; [| exact Hver].
    auto. }
  destruct (lp_tokens_issued st =? 0) eqn:Ei.
  - apply Z.eqb_eq in Ei.
    destruct (mul64_cases primaryAmount secondaryAmount) as [(_ & ->) | (_ & ->)];
      cbn [bind]; [| exact Hver].
    apply Htail. intros Hne. contradiction.
  - apply Z.eqb_neq in Ei.
    destruct (wideRatio_cases primaryAmount tot pr)
      as [(Hpr & _ & ->) | [(Hpr & ->) | (_ & _ & ->)]]; cbn [bind];
      [| auto | exact Hver].
    destruct (mul64_cases secondaryAmount tot) as [(Hn & ->) | (_ & ->)];
      cbn [bind]; [| exact Hver].
    destruct (wideRatio1_cases (secondaryAmount * tot) sr)
      as [(Hsr & _ & ->) | [(Hsr & ->) | (_ & _ & ->)]]; cbn [bind];
      [| auto | exact Hver].
    apply Htail. auto.
Qed.

Lemma addLiquidity_outcomes_witness :
  let ctx := Scenario.as_ Scenario.provider in
  1000 * total_lp_supply Scenario.funded <= MAX_UINT64 /\
  addLiquidity ctx 1000 200000
    (Scenario.deposit Scenario.provider Scenario.primaryAssetId 1000)
    (Scenario.deposit Scenario.provider Scenario.secondaryAssetId 200000)
    Scenario.funded = Err ArithmeticOverflow.
Proof.
  intros ctx. split; [| vm_compute; reflexivity].
  pose proof (addLiquidity_outcomes ctx 1000 1000
                (Scenario.deposit Scenario.provider Scenario.primaryAssetId 1000)
                (Scenario.deposit Scenario.provider Scenario.secondaryAssetId 1000)
                Scenario.funded) as H.
  assert (E : addLiquidity ctx 1000 1000
                (Scenario.deposit Scenario.provider Scenario.primaryAssetId 1000)
                (Scenario.deposit Scenario.provider Scenario.secondaryAssetId 1000)
                Scenario.funded
              = Ok (step Scenario.funded
                      (ctx, Scenario.add_call Scenario.provider 1000 1000),
                    [AssetTransfer 1003 Scenario.provider 999999998999]))
    by (vm_compute; reflexivity).
  rewrite E in H. cbv zeta in H. destruct H as (_ & _ & H).
  apply H. vm_compute. discriminate.
Defined.

(** X21. A first deposit may mint nothing: while no LP tokens are issued,
    a deposit in which one of the two amounts is zero is accepted (when
    the transfers verify and the reserves stay within bounds); the other
    amount enters the reserve, the sender receives 0 LP tokens, and
    [lp_tokens_issued] remains 0, so the next deposit is again priced as a
    first one. *)
Theorem first_deposit_may_mint_nothing (ctx : Context)
    (primaryAmount secondaryAmount : Z) (st : State) :
  wf_state st -> uint64 primaryAmount -> uint64 secondaryAmount ->
  st.(lp_tokens_issued) = 0 ->
  primaryAmount * secondaryAmount = 0 ->
  (st.(primary_token_reserve) + primaryAmount)
    * (st.(secondary_token_reserve) + secondaryAmount) <= MAX_UINT64 ->
  st.(primary_token_reserve) + primaryAmount <= MAX_UINT64 ->
  st.(secondary_token_reserve) + secondaryAmount <= MAX_UINT64 ->
  exists st',
    addLiquidity ctx primaryAmount secondaryAmount
      (mkAssetTransferTxn ctx.(sender) ctx.(app_address)
         st.(primary_token_id) primaryAmount)
      (mkAssetTransferTxn ctx.(sender) ctx.(app_address)
         st.(secondary_token_id) secondaryAmount) st
      = Ok (st', [AssetTransfer st.(lp_token_id) ctx.(sender) 0]) /\
    st'.(primary_token_reserve) = st.(primary_token_reserve) + primaryAmount /\
    st'.(secondary_token_reserve) = st.(secondary_token_reserve) + secondaryAmount /\
    st'.(lp_tokens_issued) = 0 /\
    st'.(total_lp_supply) = st.(total_lp_supply).
Proof.
  intros Hwf Hp Hs Hi Hz Hk Hpm Hsm.
  destruct Hwf as (_ & _ & _ & _ & (Htl & _) & _).
  unfold addLiquidity.
  rewrite !verifyAssetTransferTxn_eval by reflexivity. cbn [bind].
  rewrite Hi. cbn [Z.eqb].
  rewrite mul64_eval by (rewrite Hz, max_uint64_value; lia). cbn [bind].
  rewrite Hz. change (sqrt 0) with 0.
  rewrite !add64_eval by assumption. cbn [bind].
  rewrite sub64_eval by assumption. cbn [bind].
  rewrite mul64_eval by assumption. cbn [bind].
  rewrite add64_eval by (rewrite max_uint64_value; lia). cbn [bind].
  eexists. split; [reflexivity |]. cbn. repeat split; lia.
Qed.

Lemma first_deposit_may_mint_nothing_witness :
  let ctx := Scenario.as_ Scenario.provider in
  let st := Scenario.initialized 30 5 in
  exists st',
    addLiquidity ctx 0 5000
      (mkAssetTransferTxn ctx.(sender) ctx.(app_address) st.(primary_token_id) 0)
      (mkAssetTransferTxn ctx.(sender) ctx.(app_address) st.(secondary_token_id) 5000)
      st
      = Ok (st', [AssetTransfer st.(lp_token_id) ctx.(sender) 0]) /\
    st'.(primary_token_reserve) = st.(primary_token_reserve) + 0 /\
    st'.(secondary_token_reserve) = st.(secondary_token_reserve) + 5000 /\
    st'.(lp_tokens_issued) = 0 /\
    st'.(total_lp_supply) = st.(total_lp_supply).
Proof.
  intros ctx st.
  assert (Hwf : wf_state st)
    by (unfold wf_state, uint64; vm_compute; repeat split; discriminate).
  apply (first_deposit_may_mint_nothing ctx 0 5000 st Hwf);
    try (unfold uint64, MAX_UINT64; lia);
    try reflexivity; vm_compute; discriminate.
Defined.

(** ** Emptying the pool and deleting the application *)

(** X22. A withdrawal empties a reserve only by burning the whole of
    [total_lp_supply]: after a successful [removeLiquidity], a reserve
    that was positive is zero exactly when [lpTokensBurned] equals
    [total_lp_supply]. *)
Theorem removeLiquidity_empties_only_at_full_supply (ctx : Context)
    (burnTxn : AssetTransferTxn) (lpTokensBurned : Z) (st st' : State)
    (txns : list InnerTxn) :
  wf_state st ->
  removeLiquidity ctx burnTxn lpTokensBurned st = Ok (st', txns) ->
  (0 < st.(primary_token_reserve) ->
   (st'.(primary_token_reserve) = 0 <-> lpTokensBurned = st.(total_lp_supply))) /\
  (0 < st.(secondary_token_reserve) ->
   (st'.(secondary_token_reserve) = 0 <-> lpTokensBurned = st.(total_lp_supply))).
Proof.
  intros Hwf H.
  apply removeLiquidity_inv in H as (Hn & _ & Hpw & Hsw & _ & _ & -> & _).
  cbn [primary_token_reserve secondary_token_reserve set_lp_tokens_issued
       set_total_lp_supply set_k_value set_secondary_token_reserve
       set_primary_token_reserve].
  assert (Hdrain : forall r, 0 < r ->
            (r - lpTokensBurned * r / total_lp_supply st = 0
             <-> lpTokensBurned = total_lp_supply st)).
  { intros r Hr. set (tot := total_lp_supply st) in *.
    split.
    - intros E.
      assert (Hfloor : tot * (lpTokensBurned * r / tot) <= lpTokensBurned * r)
        by (apply Z.mul_div_le; lia).
      nia.
    - intros ->. rewrite Z.mul_comm, Z.div_mul by lia. lia. }
  split; intros Hr; apply Hdrain; exact Hr.
Qed.

Lemma removeLiquidity_empties_only_at_full_supply_witness :
  let ctx := Scenario.as_ Scenario.provider in
  let st := set_total_lp_supply 100000 Scenario.funded in
  let st' := step st (ctx, Scenario.remove_call Scenario.provider 100000) in
  st'.(primary_token_reserve) = 0 <-> 100000 = st.(total_lp_supply).
Proof.
  intros ctx st st'.
  assert (Hwf : wf_state st)
    by (unfold wf_state, uint64; vm_compute; repeat split; discriminate).
  apply (removeLiquidity_empties_only_at_full_supply ctx
           (Scenario.deposit Scenario.provider Scenario.lpAssetId 100000) 100000
           st st' [AssetTransfer 1001 Scenario.provider 100000;
                   AssetTransfer 1002 Scenario.provider 100000] Hwf);
    vm_compute; reflexivity.
Defined.

(** X23. [deleteApplication] never runs to its end.  Its last statement
    calls the method again, and the nested call meets the same admin,
    [contract_ending] and reserves, so its checks pass again: whatever
    nesting is granted, a call is either rejected by the first of its
    checks that fails (admin, ending, primary reserve, secondary reserve,
    in that order), or, when all four pass, is still calling itself when
    the nesting is used up. *)
Theorem deleteApplication_never_returns (depth : nat) (ctx : Context) (st : State) :
  match deleteApplication (S depth) ctx st with
  | Rejected NotAdmin => ctx.(sender) <> st.(admin)
  | Rejected NotEnding => ctx.(sender) = st.(admin) /\ st.(contract_ending) <> 1
  | Rejected PrimaryReserveNotEmpty =>
      ctx.(sender) = st.(admin) /\ st.(contract_ending) = 1 /\
      st.(primary_token_reserve) <> 0
  | Rejected SecondaryReserveNotEmpty =>
      ctx.(sender) = st.(admin) /\ st.(contract_ending) = 1 /\
      st.(primary_token_reserve) = 0 /\ st.(secondary_token_reserve) <> 0
  | CutOff =>
      ctx.(sender) = st.(admin) /\ st.(contract_ending) = 1 /\
      st.(primary_token_reserve) = 0 /\ st.(secondary_token_reserve) = 0
  | Returned _ _ => False
  end.
Proof.
  revert st. induction depth as [| depth IH]; intros st.
  - cbn [deleteApplication].
    destruct (String.eqb_spec (admin st) (sender ctx)) as [Ea | Ea]; cbn [negb];
      [symmetry in Ea | congruence].
    destruct (Z.eqb_spec (contract_ending st) 1); cbn [negb]; [| auto].
    destruct (Z.eqb_spec (primary_token_reserve st) 0); cbn [negb]; [| auto].
    destruct (Z.eqb_spec (secondary_token_reserve st) 0); cbn [negb]; auto.
  - specialize (IH (set_minimum_balance (TOKEN_MBR * 2) st)).
    remember (S depth) as d eqn:Hd.
    cbn [deleteApplication].
    destruct (String.eqb_spec (admin st) (sender ctx)) as [Ea | Ea]; cbn [negb];
      [symmetry in Ea | congruence].
    destruct (Z.eqb_spec (contract_ending st) 1) as [Ee | Ee]; cbn [negb]; [| auto].
    destruct (Z.eqb_spec (primary_token_reserve st) 0) as [Ep | Ep]; cbn [negb];
      [| auto].
    destruct (Z.eqb_spec (secondary_token_reserve st) 0) as [Es | Es]; cbn [negb];
      [| auto].
    cbv zeta.
    destruct (deleteApplication d ctx (set_minimum_balance (TOKEN_MBR * 2) st))
      as [why | txns st' |].
    + destruct why; cbn in IH; tauto.
    + exact IH.
    + auto.
Qed.
